(** * auditry: request/response logging middleware

    A shallow embedding of [src/auditry/middleware.py] and
    [src/auditry/unified_middleware.py], and the properties of the capture,
    redaction, classification and logging pipeline proved over it.

    Conventions of the embedding.
    - A Python [str] is a [string]; a [bytes] object is a [list byte].
    - A Python object that ends up in a log record (a decoded JSON document,
      a user identifier, a captured body) is a [pyval].
    - An insertion-ordered [dict] with string keys is an association list whose
      keys are pairwise distinct; [dict_set] keeps the position of a key that
      is already present, as Python does.
    - A method that can raise returns [Ok v] or [Raise e]; [e : exn] stands for
      an instance of Python's [Exception], the class every [except] clause of
      the module names.
    - The log sink, the ambient logging context and the clock are the three
      components of [world]; the methods that touch them live in the monad [M].
    - What the module imports from outside the repository or from files that
      are not part of this development ([json.loads], [bytes.decode], the [re]
      engine, [redact_data], [redact_headers], float formatting) is gathered in
      the record [Collaborators]. *)

From Stdlib Require Import List String Ascii Bool ZArith QArith Lia.
From Stdlib.Strings Require Import Byte.
From Stdlib Require Import Qround SpecFloat DecimalString.
Import ListNotations.
Local Open Scope string_scope.
Local Open Scope Z_scope.

Set Implicit Arguments.
Set Warnings "-register-all".

(* ------------------------------------------------------------------ *)
(** ** Python values *)

Definition bytes := list byte.

Inductive pyval : Type :=
| PyNone
| PyBool (b : bool)
| PyInt (z : Z)
| PyFloat (f : spec_float)
| PyStr (s : string)
| PyList (l : list pyval)
| PyDict (d : list (string * pyval)).

(** Truth value of an object, as [if x:] tests it. *)
Definition truthy (v : pyval) : bool :=
  match v with
  | PyNone => false
  | PyBool b => b
  | PyInt z => negb (z =? 0)
  | PyFloat (S754_zero _) => false
  | PyFloat _ => true
  | PyStr s => negb (String.eqb s "")
  | PyList l => match l with [] => false | _ => true end
  | PyDict d => match d with [] => false | _ => true end
  end.

Definition isinstance_dict (v : pyval) : option (list (string * pyval)) :=
  match v with PyDict d => Some d | _ => None end.

(** *** Dictionaries with string keys *)

Section Dict.
Variable V : Type.

Definition dict := list (string * V).

Fixpoint dict_get (d : dict) (k : string) : option V :=
  match d with
  | [] => None
  | (k', v) :: d' => if String.eqb k k' then Some v else dict_get d' k
  end.

(** [d[k] = v]: the value of an existing key is replaced where it stands, a
    new key goes to the end. *)
Fixpoint dict_set (d : dict) (k : string) (v : V) : dict :=
  match d with
  | [] => [(k, v)]
  | (k', v') :: d' =>
      if String.eqb k k' then (k, v) :: d' else (k', v') :: dict_set d' k v
  end.

(** [dict(pairs)]: later pairs overwrite earlier ones. *)
Definition dict_of_pairs (l : list (string * V)) : dict :=
  fold_left (fun d kv => dict_set d (fst kv) (snd kv)) l [].
End Dict.

Arguments dict_get {V} d k.
Arguments dict_set {V} d k v.
Arguments dict_of_pairs {V} l.

(** *** Strings *)

Definition chars (s : string) : list ascii := list_ascii_of_string s.
Definition str_of (l : list ascii) : string := string_of_list_ascii l.

Definition bytes_of_string (s : string) : bytes := list_byte_of_string s.

(** [s.split(" ", 1)] when [s] holds a space: the text before the first space
    and the text after it; [None] when there is no space (the list Python
    returns then has one element). *)
Fixpoint split_first_space (s : string) : option (string * string) :=
  match s with
  | EmptyString => None
  | String c s' =>
      if Ascii.eqb c " " then Some (EmptyString, s')
      else match split_first_space s' with
           | Some (a, b) => Some (String c a, b)
           | None => None
           end
  end.

Definition lower_char (c : ascii) : ascii :=
  let n := nat_of_ascii c in
  if (Nat.leb 65 n && Nat.leb n 90)%bool then ascii_of_nat (n + 32) else c.

Fixpoint lower (s : string) : string :=
  match s with
  | EmptyString => EmptyString
  | String c s' => String (lower_char c) (lower s')
  end.

Definition str_of_int (z : Z) : string := NilZero.string_of_int (Z.to_int z).

(** [b[:n]] on a sequence: the first [n] items for [n >= 0], all but the last
    [-n] items for [n < 0]. *)
Definition slice_to {A} (l : list A) (n : Z) : list A :=
  if 0 <=? n then firstn (Z.to_nat n) l
  else firstn (List.length l - Z.to_nat (- n)) l.

Definition len {A} (l : list A) : Z := Z.of_nat (List.length l).

(* ------------------------------------------------------------------ *)
(** ** Exceptions and results *)

Record exn : Type := mk_exn {
  exn_type_name : string;   (* type(e).__name__ *)
  exn_str : string          (* str(e) *)
}.

Inductive result (A : Type) : Type :=
| Ok (a : A)
| Raise (e : exn).

Arguments Ok {A} a.
Arguments Raise {A} e.

Definition ValueError (msg : string) : exn := mk_exn "ValueError" msg.

(* ------------------------------------------------------------------ *)
(** ** Configuration ([models.py]) *)

(** The two configuration classes are declared in [models.py]; the fields
    below are the ones the middleware reads. *)
Record BusinessEventConfig : Type := {
  event_type : string;
  extract_from_request : list string;
  extract_from_response : list string;
  extract_from_path : list string
}.

Record ObservabilityConfig : Type := {
  service_name : string;
  correlation_id_header : string;
  log_request_headers : bool;
  log_response_headers : bool;
  log_query_params : bool;
  payload_size_limit : Z;
  additional_redaction_patterns : list string;
  (* a dict: iteration follows insertion order *)
  business_events : list (string * BusinessEventConfig)
}.

(** Modelled from the spec: the constructor of [ObservabilityConfig] is
    declared in [models.py], which is not part of the sources.  Section 3:
    [service_name] is required and is a non-empty string; section 7: a
    missing [service_name] is fatal at construction.  Only this requirement
    is modelled.  [name] is the keyword argument [service_name], absent or
    given; [others] holds the values of the remaining fields, given or
    default, taken as they are (its own [service_name] is not read).  The
    spec does not name the exception. *)
Definition service_name_required : exn :=
  mk_exn "ValidationError" "service_name: field required".

Definition with_service_name (name : string) (others : ObservabilityConfig)
  : ObservabilityConfig :=
  {| service_name := name;
     correlation_id_header := correlation_id_header others;
     log_request_headers := log_request_headers others;
     log_response_headers := log_response_headers others;
     log_query_params := log_query_params others;
     payload_size_limit := payload_size_limit others;
     additional_redaction_patterns := additional_redaction_patterns others;
     business_events := business_events others |}.

Definition ObservabilityConfig_init (name : option string)
           (others : ObservabilityConfig) : result ObservabilityConfig :=
  match name with
  | None => Raise service_name_required
  | Some given =>
      if String.eqb given "" then Raise service_name_required
      else Ok (with_service_name given others)
  end.

(* ------------------------------------------------------------------ *)
(** ** Requests and responses (the framework's objects) *)

(** [request.state.user]: an object that may or may not have an [id]. *)
Record UserObject : Type := { user_obj_id : option pyval }.

(** [request.state]: each attribute is either set or missing, which is what
    [hasattr] observes. *)
Record State : Type := {
  state_user_id : option pyval;
  state_user : option UserObject
}.

Record Request : Type := {
  method : string;
  url_path : string;
  headers : dict string;
  query_params : dict string;
  body : result bytes;          (* what [await request.body()] gives *)
  state : State
}.

Inductive ResponseBody : Type :=
| Streaming                     (* isinstance(response, StreamingResponse) *)
| Body (b : bytes)              (* hasattr(response, "body") *)
| NoBody.

Record Response : Type := {
  status_code : Z;
  response_headers : dict string;
  response_body : ResponseBody
}.

(** [response.headers[name] = value]: header names are case-insensitive and
    stored in lower case. *)
Definition set_header (r : Response) (name value : string) : Response :=
  {| status_code := status_code r;
     response_headers := dict_set (response_headers r) (lower name) value;
     response_body := response_body r |}.

Definition get_header (h : dict string) (name : string) : option string :=
  dict_get h (lower name).

(* ------------------------------------------------------------------ *)
(** ** Records handed to the logger *)

(** The dict [_capture_request] returns. *)
Record RequestData : Type := {
  rd_method : string;
  rd_path : string;
  rd_query_params : option (dict string);
  rd_headers : option (dict string);
  rd_body : pyval;
  rd_user_id : pyval;
  rd_correlation_id : option string
}.

(** The dict [_capture_response] returns. *)
Record ResponseData : Type := {
  rs_status_code : Z;
  rs_headers : option (dict string);
  rs_body : pyval;
  rs_duration_ms : Q
}.

(** The dict [_extract_business_event] returns. *)
Record BusinessEvent : Type := {
  be_event_type : string;
  be_business_context : dict pyval
}.

Inductive level : Type := INFO | WARNING | ERROR.

(** Keyword arguments of one logger call. *)
Inductive log_fields : Type :=
| NoFields
| Completed (service : string) (request : RequestData) (response : ResponseData)
            (execution_duration_ms : Q) (event : option BusinessEvent)
| Failed (service : string) (request : RequestData)
         (exception_type exception_message : string)
         (execution_duration_ms : Q).

Record LogRecord : Type := {
  lr_level : level;
  lr_message : string;
  lr_fields : log_fields
}.

(* ------------------------------------------------------------------ *)
(** ** The world and the monad of the middleware *)

Record world : Type := {
  sink : list LogRecord;              (* records emitted so far, oldest first *)
  context : dict pyval;               (* structlog's bound context variables *)
  correlation : option string;        (* the correlation id of this request *)
  clock : list Q                      (* the readings [time.time()] will give *)
}.

Definition M (A : Type) : Type := world -> result A * world.

Definition ret {A} (a : A) : M A := fun w => (Ok a, w).
Definition raise {A} (e : exn) : M A := fun w => (Raise e, w).

Definition bind {A B} (m : M A) (k : A -> M B) : M B :=
  fun w => match m w with
           | (Ok a, w') => k a w'
           | (Raise e, w') => (Raise e, w')
           end.

(** [try: m  except Exception as e: h e] *)
Definition try_except {A} (m : M A) (h : exn -> M A) : M A :=
  fun w => match m w with
           | (Ok a, w') => (Ok a, w')
           | (Raise e, w') => h e w'
           end.

Definition lift {A} (r : result A) : M A := fun w => (r, w).

Notation "x <- m ;; k" := (bind m (fun x => k))
  (at level 61, m at next level, right associativity).
Notation "m ;;; k" := (bind m (fun _ => k))
  (at level 61, right associativity).

Definition set_sink (w : world) (s : list LogRecord) : world :=
  {| sink := s; context := context w; correlation := correlation w;
     clock := clock w |}.

Definition emit (l : level) (msg : string) (f : log_fields) : M unit :=
  fun w => (Ok tt, set_sink w (sink w ++ [{| lr_level := l; lr_message := msg;
                                             lr_fields := f |}])).

Definition logger_info := emit INFO.
Definition logger_warning (msg : string) := emit WARNING msg NoFields.
Definition logger_error := emit ERROR.

(** [structlog.contextvars.bind_contextvars(key=value)] *)
Definition bind_contextvars (key : string) (value : pyval) : M unit :=
  fun w => (Ok tt, {| sink := sink w; context := dict_set (context w) key value;
                      correlation := correlation w; clock := clock w |}).

(** [time.time()]: the next reading of the clock. *)
Definition time_time : M Q :=
  fun w => match clock w with
           | [] => (Ok 0%Q, w)
           | t :: ts => (Ok t, {| sink := sink w; context := context w;
                                  correlation := correlation w; clock := ts |})
           end.

(** [get_correlation_id()] of [correlation.py] reads the identifier that the
    correlation middleware bound for the request being processed. *)
Definition get_correlation_id : M (option string) :=
  fun w => (Ok (correlation w), w).

(* ------------------------------------------------------------------ *)
(** ** What the module imports *)

(** Outcome of [json.loads(b)]: a document, the [json.JSONDecodeError] the
    module catches, or another exception (a payload that is not valid UTF-8
    makes [json.loads] raise [UnicodeDecodeError], which is not a
    [JSONDecodeError]). *)
Inductive json_outcome : Type :=
| Decoded (v : pyval)
| JSONDecodeError
| JsonRaises (e : exn).

(** Outcome of [re.match(pattern, subject)]: no match ([None]), a match with
    the text of its groups, or the exception raised for a pattern the engine
    cannot compile. *)
Inductive re_outcome : Type :=
| NoMatch
| Match (groups : list string)
| ReRaises (e : exn).

Record Collaborators : Type := {
  json_loads : bytes -> json_outcome;
  (* b.decode("utf-8", errors="replace"), which never raises *)
  decode_replace : bytes -> string;
  (* redaction.py *)
  redact_data : pyval -> list string -> pyval;
  redact_headers : dict string -> dict string;
  re_match : string -> string -> re_outcome;
  (* f"{x:.2f}" *)
  format_2f : Q -> string
}.

(* ------------------------------------------------------------------ *)
(** ** The two regular-expression rewrites of the module *)

(** Both [re.sub(r"\{[^}]+\}", repl, s)] and [re.findall(r"\{([^}]+)\}", s)]
    scan [s] for the leftmost, non-overlapping pieces made of an opening
    brace, one or more characters other than a closing brace, and a closing
    brace.  The scanner is either outside such a piece or has seen its opening
    brace and the characters [pending] (latest first) after it. *)

Definition lbrace : ascii := "{"%char.
Definition rbrace : ascii := "}"%char.

Fixpoint scan_sub (repl : list ascii) (pending : option (list ascii))
                  (l : list ascii) : list ascii :=
  match l, pending with
  | [], None => []
  | [], Some p => lbrace :: rev p
  | c :: l', None =>
      if Ascii.eqb c lbrace then scan_sub repl (Some []) l'
      else c :: scan_sub repl None l'
  | c :: l', Some p =>
      if Ascii.eqb c rbrace then
        match p with
        | [] => lbrace :: rbrace :: scan_sub repl None l'
        | _ => repl ++ scan_sub repl None l'
        end
      else scan_sub repl (Some (c :: p)) l'
  end.

Fixpoint scan_findall (pending : option (list ascii)) (l : list ascii)
  : list string :=
  match l, pending with
  | [], _ => []
  | c :: l', None =>
      if Ascii.eqb c lbrace then scan_findall (Some []) l'
      else scan_findall None l'
  | c :: l', Some p =>
      if Ascii.eqb c rbrace then
        match p with
        | [] => scan_findall None l'
        | _ => str_of (rev p) :: scan_findall None l'
        end
      else scan_findall (Some (c :: p)) l'
  end.

(** [re.sub(r"\{[^}]+\}", repl, s)]; [repl] holds no backslash. *)
Definition re_sub_braces (repl s : string) : string :=
  str_of (scan_sub (chars repl) None (chars s)).

(** [re.findall(r"\{([^}]+)\}", s)] *)
Definition re_findall_braces (s : string) : list string :=
  scan_findall None (chars s).

(* ------------------------------------------------------------------ *)
(** ** Reference semantics of [re.match] on the patterns the module builds *)

(** The module only ever matches patterns of the shape ["^" ++ body ++ "$"],
    where [body] is an endpoint path in which every placeholder was replaced
    by [[^/]+] or [([^/]+)].  [re_match_ref] gives the result of [re.match] for
    the bodies made of ordinary characters, dots and those two pieces, and for
    the bodies whose only other characters are unmatched parentheses, which
    the engine refuses to compile.  It answers [None] for every other
    pattern: those are left to the engine. *)

Inductive atom : Type :=
| Lit (c : ascii)            (* an ordinary character: matches itself *)
| Dot                        (* [.]: any character but a newline *)
| Seg (captured : bool)      (* [[^/]+] or [([^/]+)] *)
| Open                       (* a lone opening parenthesis *)
| Close                      (* a lone closing parenthesis *)
| Other (c : ascii).         (* any other character with a meaning of its own *)

Definition special : list ascii :=
  chars "\^$|?*+[]{}".

Definition classify (c : ascii) : atom :=
  if Ascii.eqb c "." then Dot
  else if Ascii.eqb c "(" then Open
  else if Ascii.eqb c ")" then Close
  else if existsb (Ascii.eqb c) special then Other c
  else Lit c.

Fixpoint strip_prefix (p l : list ascii) : option (list ascii) :=
  match p, l with
  | [], _ => Some l
  | _ :: _, [] => None
  | a :: p', b :: l' => if Ascii.eqb a b then strip_prefix p' l' else None
  end.

Fixpoint tokenize (fuel : nat) (l : list ascii) : list atom :=
  match fuel, l with
  | O, _ => []
  | _, [] => []
  | S f, c :: l' =>
      match strip_prefix (chars "([^/]+)") l with
      | Some rest => Seg true :: tokenize f rest
      | None =>
          match strip_prefix (chars "[^/]+") l with
          | Some rest => Seg false :: tokenize f rest
          | None => classify c :: tokenize f l'
          end
      end
  end.

Definition newline : ascii := ascii_of_nat 10.
Definition slash : ascii := "/"%char.

(** [$] without the MULTILINE flag: the end of the subject, or the position
    before a newline that ends the subject. *)
Definition at_end (s : list ascii) : bool :=
  match s with
  | [] => true
  | [c] => Ascii.eqb c newline
  | _ => false
  end.

(** [[^/]+] followed by the continuation [k]: at least one character that is
    not a slash, as many as possible first. *)
Fixpoint match_seg {X} (k : list ascii -> option X) (s : list ascii)
  : option (list ascii * X) :=
  match s with
  | [] => None
  | c :: s' =>
      if Ascii.eqb c slash then None
      else match match_seg k s' with
           | Some (g, x) => Some (c :: g, x)
           | None => match k s' with
                     | Some x => Some ([c], x)
                     | None => None
                     end
           end
  end.

(** Backtracking match of a sequence of atoms followed by [$]; the result is
    the text of the capturing groups, left to right. *)
Fixpoint match_atoms (atoms : list atom) (s : list ascii)
  : option (list string) :=
  match atoms with
  | [] => if at_end s then Some [] else None
  | Lit c :: rest =>
      match s with
      | c' :: s' => if Ascii.eqb c c' then match_atoms rest s' else None
      | [] => None
      end
  | Dot :: rest =>
      match s with
      | c' :: s' => if Ascii.eqb c' newline then None else match_atoms rest s'
      | [] => None
      end
  | Seg captured :: rest =>
      match match_seg (match_atoms rest) s with
      | Some (g, gs) => Some (if captured then str_of g :: gs else gs)
      | None => None
      end
  | _ :: _ => None
  end.

Definition is_open (a : atom) := match a with Open => true | _ => false end.
Definition is_close (a : atom) := match a with Close => true | _ => false end.
Definition is_other (a : atom) := match a with Other _ => true | _ => false end.

(** What the reference says about one call of [re.match]. *)
Inductive ref_outcome : Type :=
| RefNoMatch
| RefMatch (groups : list string)
| RefError.                   (* the engine raises [re.error] *)

(** The body of an anchored pattern: the text between the leading [^] and
    the trailing [$]. *)
Definition anchored_body (pattern : string) : option (list ascii) :=
  match chars pattern with
  | c :: rest =>
      if Ascii.eqb c "^" then
        match rev rest with
        | d :: rbody => if Ascii.eqb d "$" then Some (rev rbody) else None
        | [] => None
        end
      else None
  | [] => None
  end.

Definition re_match_ref (pattern subject : string) : option ref_outcome :=
  match anchored_body pattern with
  | None => None
  | Some body =>
      let atoms := tokenize (List.length body) body in
      if existsb is_other atoms then None
      else match existsb is_open atoms, existsb is_close atoms with
           | true, true => None
           | true, false => Some RefError     (* missing ), unterminated subpattern *)
           | false, true => Some RefError     (* unbalanced parenthesis *)
           | false, false =>
               match match_atoms atoms (chars subject) with
               | Some gs => Some (RefMatch gs)
               | None => Some RefNoMatch
               end
           end
  end.

Definition agrees (r : ref_outcome) (o : re_outcome) : Prop :=
  match r with
  | RefNoMatch => o = NoMatch
  | RefMatch gs => o = Match gs
  | RefError => exists e, o = ReRaises e
  end.

(** An engine is faithful when it gives the reference's answer wherever the
    reference has one. *)
Definition re_faithful (ext : Collaborators) : Prop :=
  forall pattern subject r,
    re_match_ref pattern subject = Some r ->
    agrees r (re_match ext pattern subject).

(* ------------------------------------------------------------------ *)
(** ** [middleware.py]: class [RequestResponseLoggingMiddleware] *)

Section RequestResponseLoggingMiddleware.

Variable ext : Collaborators.
Variable config : ObservabilityConfig.        (* self.config *)

(** The mapping [_parse_body_bytes] returns for a payload over the limit. *)
Definition truncated (original_size : Z) (preview : string) : pyval :=
  PyDict [("_truncated", PyBool true);
          ("_original_size", PyInt original_size);
          ("_preview", PyStr preview)].

Definition _parse_body_bytes (body_bytes : bytes) : result pyval :=
  match body_bytes with
  | [] => Ok PyNone
  | _ =>
      if payload_size_limit config <? len body_bytes then
        Ok (truncated (len body_bytes)
              (decode_replace ext
                 (slice_to body_bytes (payload_size_limit config))))
      else
        match json_loads ext body_bytes with
        | Decoded body_json =>
            Ok (redact_data ext body_json
                  (additional_redaction_patterns config))
        | JSONDecodeError => Ok (PyStr (decode_replace ext body_bytes))
        | JsonRaises e => Raise e
        end
  end.

Definition _capture_request_body (request : Request) : M pyval :=
  try_except
    (body_bytes <- lift (body request) ;;
     lift (_parse_body_bytes body_bytes))
    (fun e =>
       logger_warning ("Failed to capture request body: " ++ exn_str e) ;;;
       ret PyNone).

Definition streaming_marker : pyval :=
  PyDict [("_streaming", PyBool true);
          ("_message", PyStr "Streaming response body not captured")].

Definition _capture_response_body (response : Response) : M pyval :=
  try_except
    (match response_body response with
     | Streaming => ret streaming_marker
     | Body b => lift (_parse_body_bytes b)
     | NoBody => ret PyNone
     end)
    (fun e =>
       logger_warning ("Failed to capture response body: " ++ exn_str e) ;;;
       ret PyNone).

Definition _capture_request (request : Request)
           (correlation_id : option string) : M RequestData :=
  let user_id :=
    match state_user_id (state request) with
    | Some direct => direct
    | None =>
        match state_user (state request) with
        | Some user =>
            match user_obj_id user with
            | Some id => id
            | None => PyNone
            end
        | None => PyNone
        end
    end in
  let headers :=
    if log_request_headers config
    then Some (redact_headers ext (headers request)) else None in
  let query_params :=
    if log_query_params config then Some (query_params request) else None in
  body <- _capture_request_body request ;;
  ret {| rd_method := method request;
         rd_path := url_path request;
         rd_query_params := query_params;
         rd_headers := headers;
         rd_body := body;
         rd_user_id := user_id;
         rd_correlation_id := correlation_id |}.

Definition _capture_response (response : Response) (duration_ms : Q)
  : M ResponseData :=
  let headers :=
    if log_response_headers config
    then Some (redact_headers ext (response_headers response)) else None in
  body <- _capture_response_body response ;;
  ret {| rs_status_code := status_code response;
         rs_headers := headers;
         rs_body := body;
         rs_duration_ms := duration_ms |}.

Definition _matches_endpoint_pattern (endpoint pattern : string)
  : result bool :=
  match split_first_space endpoint, split_first_space pattern with
  | Some (endpoint_method, endpoint_path),
    Some (pattern_method, pattern_path) =>
      if negb (String.eqb endpoint_method pattern_method) then Ok false
      else
        let pattern_regex := re_sub_braces "[^/]+" pattern_path in
        let pattern_regex := "^" ++ pattern_regex ++ "$" in
        match re_match ext pattern_regex endpoint_path with
        | NoMatch => Ok false
        | Match _ => Ok true
        | ReRaises e => Raise e
        end
  | _, _ => Ok false
  end.

Definition _extract_path_params (path pattern : string)
  : result (dict string) :=
  let pattern_path :=
    match split_first_space pattern with
    | Some (_, p) => p
    | None => pattern
    end in
  let param_names := re_findall_braces pattern_path in
  match param_names with
  | [] => Ok []
  | _ =>
      let pattern_regex := re_sub_braces "([^/]+)" pattern_path in
      let pattern_regex := "^" ++ pattern_regex ++ "$" in
      match re_match ext pattern_regex path with
      | NoMatch => Ok []
      | Match groups => Ok (dict_of_pairs (combine param_names groups))
      | ReRaises e => Raise e
      end
  end.

(** [for field in fields: if field in source: context[field] = source[field]] *)
Definition copy_fields {V} (inj : V -> pyval) (fields : list string)
           (source : dict V) (business_context : dict pyval) : dict pyval :=
  fold_left
    (fun ctx field =>
       match dict_get source field with
       | Some v => dict_set ctx field (inj v)
       | None => ctx
       end)
    fields business_context.

(** [if fields and captured_body: if isinstance(captured_body, dict): ...] *)
Definition extract_from_body (fields : list string) (captured_body : pyval)
           (business_context : dict pyval) : dict pyval :=
  match fields with
  | [] => business_context
  | _ =>
      if truthy captured_body then
        match isinstance_dict captured_body with
        | Some d => copy_fields (fun v => v) fields d business_context
        | None => business_context
        end
      else business_context
  end.

(** The body of the loop of [_extract_business_event] once a pattern has
    matched. *)
Definition build_event (request : Request) (request_data : RequestData)
           (response_data : ResponseData) (pattern : string)
           (event_config : BusinessEventConfig) : result BusinessEvent :=
  let business_context := [] in
  let business_context :=
    extract_from_body (extract_from_request event_config)
                      (rd_body request_data) business_context in
  let business_context :=
    extract_from_body (extract_from_response event_config)
                      (rs_body response_data) business_context in
  match extract_from_path event_config with
  | [] => Ok {| be_event_type := event_type event_config;
                be_business_context := business_context |}
  | params =>
      match _extract_path_params (url_path request) pattern with
      | Raise e => Raise e
      | Ok path_params =>
          Ok {| be_event_type := event_type event_config;
                be_business_context :=
                  copy_fields PyStr params path_params business_context |}
      end
  end.

(** [for pattern, event_config in self.config.business_events.items(): ...] *)
Fixpoint first_event (request : Request) (request_data : RequestData)
         (response_data : ResponseData) (endpoint_pattern : string)
         (events : list (string * BusinessEventConfig))
  : result (option BusinessEvent) :=
  match events with
  | [] => Ok None
  | (pattern, event_config) :: rest =>
      match _matches_endpoint_pattern endpoint_pattern pattern with
      | Raise e => Raise e
      | Ok true =>
          match build_event request request_data response_data
                            pattern event_config with
          | Raise e => Raise e
          | Ok ev => Ok (Some ev)
          end
      | Ok false =>
          first_event request request_data response_data
                      endpoint_pattern rest
      end
  end.

Definition _extract_business_event (request : Request)
           (request_data : RequestData) (response_data : ResponseData)
  : result (option BusinessEvent) :=
  match business_events config with
  | [] => Ok None
  | events =>
      let endpoint_pattern := method request ++ " " ++ url_path request in
      first_event request request_data response_data endpoint_pattern events
  end.

Definition elapsed_ms (start now : Q) : Q :=
  Qmult (Qminus now start) (inject_Z 1000).

Definition completed_message (request : Request) (response : Response)
           (execution_duration_ms : Q) : string :=
  "Request completed: " ++ method request ++ " " ++ url_path request
    ++ " - Status: " ++ str_of_int (status_code response)
    ++ " - Duration: " ++ format_2f ext execution_duration_ms ++ "ms".

Definition failed_message (request : Request) (e : exn)
           (execution_duration_ms : Q) : string :=
  "Request failed: " ++ method request ++ " " ++ url_path request
    ++ " - Error: " ++ exn_type_name e ++ ": " ++ exn_str e
    ++ " - Duration: " ++ format_2f ext execution_duration_ms ++ "ms".

Definition opt_truthy (s : option string) : bool :=
  match s with
  | Some v => negb (String.eqb v "")
  | None => false
  end.

Definition opt_str (s : option string) : pyval :=
  match s with Some v => PyStr v | None => PyNone end.

Definition dispatch (request : Request)
           (call_next : Request -> result Response) : M Response :=
  correlation_id <- get_correlation_id ;;
  bind_contextvars "correlation_id" (opt_str correlation_id) ;;;
  execution_start_time <- time_time ;;
  request_data <- _capture_request request correlation_id ;;
  (if truthy (rd_user_id request_data)
   then bind_contextvars "user_id" (rd_user_id request_data)
   else ret tt) ;;;
  try_except
    (response <- lift (call_next request) ;;
     now <- time_time ;;
     let execution_duration_ms := elapsed_ms execution_start_time now in
     response_data <- _capture_response response execution_duration_ms ;;
     let response :=
       match correlation_id with
       | Some cid =>
           if opt_truthy correlation_id
           then set_header response (correlation_id_header config) cid
           else response
       | None => response
       end in
     business_event_data <-
       lift (_extract_business_event request request_data response_data) ;;
     logger_info
       (completed_message request response execution_duration_ms)
       (Completed (service_name config) request_data response_data
                  execution_duration_ms business_event_data) ;;;
     ret response)
    (fun e =>
       now <- time_time ;;
       let execution_duration_ms := elapsed_ms execution_start_time now in
       logger_error
         (failed_message request e execution_duration_ms)
         (Failed (service_name config) request_data
                 (exn_type_name e) (exn_str e) execution_duration_ms) ;;;
       raise e).

End RequestResponseLoggingMiddleware.

(* ------------------------------------------------------------------ *)
(** ** [unified_middleware.py]: class [ObservabilityMiddleware] *)

Record LoggingMiddleware : Type := { lm_config : ObservabilityConfig }.

(** [RequestResponseLoggingMiddleware.__init__]: [config or ObservabilityConfig()];
    [default] is what the argumentless constructor of [models.py] gives. *)
Definition RequestResponseLoggingMiddleware_init
           (config : option ObservabilityConfig)
           (default : result ObservabilityConfig) : result LoggingMiddleware :=
  match config with
  | Some c => Ok {| lm_config := c |}
  | None => match default with
            | Ok c => Ok {| lm_config := c |}
            | Raise e => Raise e
            end
  end.

Record CorrelationIdMiddleware : Type := {
  cim_app : LoggingMiddleware;
  cim_header_name : string
}.

Record ObservabilityMiddleware : Type := {
  om_config : ObservabilityConfig;
  om_wrapped_app : CorrelationIdMiddleware
}.

Definition ObservabilityMiddleware_init (config : option ObservabilityConfig)
  : result ObservabilityMiddleware :=
  match config with
  | None => Raise (ValueError "ObservabilityConfig is required")
  | Some config =>
      let logging_app := {| lm_config := config |} in
      let correlation_app :=
        {| cim_app := logging_app;
           cim_header_name := correlation_id_header config |} in
      Ok {| om_config := config; om_wrapped_app := correlation_app |}
  end.

(** Start-up as in [examples/simple_app.py]: the configuration is built
    first, being the argument of the call, then the middleware around it. *)
Definition build_middleware (name : option string)
           (others : ObservabilityConfig) : result ObservabilityMiddleware :=
  match ObservabilityConfig_init name others with
  | Ok config => ObservabilityMiddleware_init (Some config)
  | Raise e => Raise e
  end.

(** Modelled from the spec: the correlation layer ([correlation.py] and the
    correlation middleware the unified middleware wraps around the logging
    middleware) is not part of the sources.  Section 4.1: a non-empty value
    under the configured header is reused verbatim, otherwise a new token is
    generated; the token is bound for the processing of the request. *)
Definition resolve (incoming : option string) (fresh : string) : string :=
  match incoming with
  | Some v => if String.eqb v "" then fresh else v
  | None => fresh
  end.

Definition bind_correlation (token : string) : M unit :=
  fun w => (Ok tt, {| sink := sink w; context := context w;
                      correlation := Some token; clock := clock w |}).

(** [ObservabilityMiddleware.__call__]: the correlation layer, then
    [dispatch] of the logging middleware.  [fresh] is the token the generator
    would produce for this request. *)
Definition ObservabilityMiddleware_call (ext : Collaborators)
           (mw : ObservabilityMiddleware) (fresh : string)
           (request : Request) (call_next : Request -> result Response)
  : M Response :=
  let app := om_wrapped_app mw in
  bind_correlation
    (resolve (get_header (headers request) (cim_header_name app)) fresh) ;;;
  dispatch ext (lm_config (cim_app app)) request call_next.

Definition initial_world (readings : list Q) : world :=
  {| sink := []; context := []; correlation := None; clock := readings |}.

(* ------------------------------------------------------------------ *)
(** ** Reference collaborators used on concrete requests *)

Module Reference.

(** *** A reader for plain JSON documents

    [json_loads] below agrees with [json.loads] on ASCII payloads made of
    objects, arrays, strings without escapes, integers and the three
    literals, and on the payloads of [starts_undecodable]; any other payload
    it cannot read is reported as a decode error. *)

Definition dquote : ascii := ascii_of_nat 34.

Definition is_ws (c : ascii) : bool :=
  existsb (Ascii.eqb c) [" "%char; ascii_of_nat 9; ascii_of_nat 10;
                         ascii_of_nat 13].

Fixpoint skip_ws (l : list ascii) : list ascii :=
  match l with
  | c :: l' => if is_ws c then skip_ws l' else l
  | [] => []
  end.

Definition digit_of (c : ascii) : option Z :=
  let n := nat_of_ascii c in
  if (Nat.leb 48 n && Nat.leb n 57)%bool then Some (Z.of_nat (n - 48))
  else None.

(** Characters of a string up to its closing quote. *)
Fixpoint read_string (l : list ascii) : option (list ascii * list ascii) :=
  match l with
  | [] => None
  | c :: l' =>
      if Ascii.eqb c dquote then Some ([], l')
      else if Ascii.eqb c "\" then None
      else if (Nat.ltb (nat_of_ascii c) 32 || Nat.leb 128 (nat_of_ascii c))%bool
      then None
      else match read_string l' with
           | Some (s, rest) => Some (c :: s, rest)
           | None => None
           end
  end.

Fixpoint read_digits (acc : Z) (l : list ascii) : Z * list ascii :=
  match l with
  | c :: l' =>
      match digit_of c with
      | Some d => read_digits (10 * acc + d) l'
      | None => (acc, l)
      end
  | [] => (acc, [])
  end.

(** [0] or a digit from 1 to 9 followed by digits. *)
Definition read_nat (l : list ascii) : option (Z * list ascii) :=
  match l with
  | c :: l' =>
      match digit_of c with
      | Some 0 => Some (0, l')
      | Some d => Some (read_digits d l')
      | None => None
      end
  | [] => None
  end.

Definition read_int (l : list ascii) : option (Z * list ascii) :=
  match l with
  | c :: l' =>
      if Ascii.eqb c "-" then
        match read_nat l' with
        | Some (n, rest) => Some (- n, rest)
        | None => None
        end
      else read_nat l
  | [] => None
  end.

Fixpoint read_value (fuel : nat) (l : list ascii)
  : option (pyval * list ascii) :=
  match fuel with
  | O => None
  | S f =>
      match l with
      | [] => None
      | c :: l' =>
          if Ascii.eqb c "{" then
            match skip_ws l' with
            | d :: l'' =>
                if Ascii.eqb d "}" then Some (PyDict [], l'')
                else read_members f [] (d :: l'')
            | [] => None
            end
          else if Ascii.eqb c "[" then
            match skip_ws l' with
            | d :: l'' =>
                if Ascii.eqb d "]" then Some (PyList [], l'')
                else read_elements f [] (d :: l'')
            | [] => None
            end
          else if Ascii.eqb c dquote then
            match read_string l' with
            | Some (s, rest) => Some (PyStr (str_of s), rest)
            | None => None
            end
          else
            match strip_prefix (chars "null") l,
                  strip_prefix (chars "true") l,
                  strip_prefix (chars "false") l with
            | Some rest, _, _ => Some (PyNone, rest)
            | _, Some rest, _ => Some (PyBool true, rest)
            | _, _, Some rest => Some (PyBool false, rest)
            | None, None, None =>
                match read_int l with
                | Some (n, rest) => Some (PyInt n, rest)
                | None => None
                end
            end
      end
  end

(** Members of an object, from the quote of a key on. *)
with read_members (fuel : nat) (acc : dict pyval) (l : list ascii)
  : option (pyval * list ascii) :=
  match fuel with
  | O => None
  | S f =>
      match l with
      | q :: l1 =>
          if Ascii.eqb q dquote then
            match read_string l1 with
            | Some (k, l2) =>
                match skip_ws l2 with
                | colon :: l3 =>
                    if Ascii.eqb colon ":" then
                      match read_value f (skip_ws l3) with
                      | Some (v, l4) =>
                          let acc := dict_set acc (str_of k) v in
                          match skip_ws l4 with
                          | d :: l5 =>
                              if Ascii.eqb d "}" then Some (PyDict acc, l5)
                              else if Ascii.eqb d ","
                              then read_members f acc (skip_ws l5)
                              else None
                          | [] => None
                          end
                      | None => None
                      end
                    else None
                | [] => None
                end
            | None => None
            end
          else None
      | [] => None
      end
  end

(** Elements of an array, from the first character of an element on. *)
with read_elements (fuel : nat) (acc : list pyval) (l : list ascii)
  : option (pyval * list ascii) :=
  match fuel with
  | O => None
  | S f =>
      match read_value f l with
      | Some (v, l1) =>
          match skip_ws l1 with
          | d :: l2 =>
              if Ascii.eqb d "]" then Some (PyList (acc ++ [v]), l2)
              else if Ascii.eqb d ","
              then read_elements f (acc ++ [v]) (skip_ws l2)
              else None
          | [] => None
          end
      | None => None
      end
  end.

Definition text_of (b : bytes) : list ascii := map ascii_of_byte b.

(** [json.loads] on bytes picks the encoding first.  A payload whose first
    byte is 0xff, not followed by 0xfe (a byte order mark) nor by a zero byte
    (the signs of UTF-16 and UTF-32), is decoded as UTF-8, where 0xff starts
    no character: the decoder raises [UnicodeDecodeError], which is not a
    [json.JSONDecodeError]. *)
Definition starts_undecodable (b : bytes) : bool :=
  match b with
  | first :: rest =>
      Byte.eqb first xff &&
      match rest with
      | second :: _ => negb (Byte.eqb second xfe || Byte.eqb second x00)
      | [] => true
      end
  | [] => false
  end.

Definition UnicodeDecodeError : exn :=
  mk_exn "UnicodeDecodeError"
         "'utf-8' codec can't decode byte 0xff in position 0: invalid start byte".

Definition json_loads (b : bytes) : json_outcome :=
  if starts_undecodable b then JsonRaises UnicodeDecodeError else
  let l := text_of b in
  match read_value (S (List.length l)) (skip_ws l) with
  | Some (v, rest) =>
      match skip_ws rest with
      | [] => Decoded v
      | _ => JSONDecodeError
      end
  | None => JSONDecodeError
  end.

(** [decode_replace] on ASCII payloads, where decoding as UTF-8 changes
    nothing and replaces nothing. *)
Definition decode_replace (b : bytes) : string := str_of (text_of b).

(** *** Redaction *)

Definition MASK : string := "***REDACTED***".

Definition is_separator (c : ascii) : bool :=
  existsb (Ascii.eqb c) ["_"%char; "-"%char; " "%char].

(** Lower-cased, separators dropped. *)
Definition normalize (key : string) : string :=
  str_of (filter (fun c => negb (is_separator c)) (chars (lower key))).

Fixpoint is_substring_chars (p l : list ascii) : bool :=
  match strip_prefix p l with
  | Some _ => true
  | None => match l with
            | [] => false
            | _ :: l' => is_substring_chars p l'
            end
  end.

Definition is_substring (p s : string) : bool :=
  is_substring_chars (chars p) (chars s).

Definition SENSITIVE_KEYS : list string :=
  ["password"; "passwd"; "api_key"; "apikey"; "token"; "secret";
   "authorization"; "ssn"; "credit_card"].

Definition is_sensitive (extra : list string) (key : string) : bool :=
  existsb (fun p => is_substring (normalize p) (normalize key))
          (SENSITIVE_KEYS ++ extra).

(** Modelled from the spec: [redact_data] of [redaction.py], which is not
    part of the sources.  Section 4.2: in a mapping, the value of a key whose
    normalized name contains a sensitive pattern is replaced by the mask
    whatever it is; the other values are recursed into; sequences are
    recursed into; any other value is returned unchanged. *)
Fixpoint redact_data (value : pyval) (extra : list string) : pyval :=
  match value with
  | PyDict d =>
      PyDict ((fix members (d : list (string * pyval)) :=
                 match d with
                 | [] => []
                 | (k, v) :: d' =>
                     (k, if is_sensitive extra k then PyStr MASK
                         else redact_data v extra) :: members d'
                 end) d)
  | PyList l =>
      PyList ((fix items (l : list pyval) :=
                 match l with
                 | [] => []
                 | v :: l' => redact_data v extra :: items l'
                 end) l)
  | _ => value
  end.

(** Modelled from the spec: [redact_headers] of [redaction.py], which is
    not part of the sources.  Section 4.2: the built-in sensitive names are
    applied to the header names. *)
Definition redact_headers (h : dict string) : dict string :=
  map (fun kv => (fst kv, if is_sensitive [] (fst kv) then MASK else snd kv)) h.

(** *** Formatting and matching *)

Definition two_digits (z : Z) : string :=
  if z <? 10 then "0" ++ str_of_int z else str_of_int z.

(** [f"{x:.2f}"] for a non-negative [x], rounded to the nearest hundredth. *)
Definition format_2f (x : Q) : string :=
  let hundredths := Qfloor (Qplus (Qmult x (inject_Z 100)) (1 # 2)) in
  str_of_int (hundredths / 100) ++ "." ++ two_digits (hundredths mod 100).

Definition re_error : exn := mk_exn "error" "invalid regular expression".

(** The reference semantics, run as an engine; a pattern the reference
    leaves open is reported as not matching. *)
Definition re_match (pattern subject : string) : re_outcome :=
  match re_match_ref pattern subject with
  | Some (RefMatch gs) => Match gs
  | Some RefError => ReRaises re_error
  | Some RefNoMatch | None => NoMatch
  end.

Definition ext : Collaborators :=
  Build_Collaborators json_loads decode_replace redact_data redact_headers
                      re_match format_2f.

End Reference.

(* ------------------------------------------------------------------ *)
(** ** Observing a run *)

(** A record of [logger.warning(message)]: no keyword arguments. *)
Definition is_plain_warning (r : LogRecord) : bool :=
  match lr_level r, lr_fields r with
  | WARNING, NoFields => true
  | _, _ => false
  end.
Definition is_info (r : LogRecord) : bool :=
  match lr_level r with INFO => true | _ => false end.
Definition is_error (r : LogRecord) : bool :=
  match lr_level r with ERROR => true | _ => false end.

(** The records a run added to the sink. *)
Definition emitted (before after : world) : list LogRecord :=
  skipn (List.length (sink before)) (sink after).

Definition count (p : LogRecord -> bool) (l : list LogRecord) : nat :=
  List.length (filter p l).

Definition request_of (r : LogRecord) : option RequestData :=
  match lr_fields r with
  | Completed _ rd _ _ _ => Some rd
  | Failed _ rd _ _ _ => Some rd
  | NoFields => None
  end.

Definition response_of (r : LogRecord) : option ResponseData :=
  match lr_fields r with
  | Completed _ _ rs _ _ => Some rs
  | _ => None
  end.

Definition event_of (r : LogRecord) : option BusinessEvent :=
  match lr_fields r with
  | Completed _ _ _ _ ev => ev
  | _ => None
  end.

(** A value has the truncated shape when it is the mapping
    [{"_truncated": True, "_original_size": n, "_preview": s}]. *)
Definition has_truncated_shape (v : pyval) : Prop :=
  exists n s, v = truncated n s.

Section Captured.
Variable ext : Collaborators.
Variable config : ObservabilityConfig.

(** The value the two body-capture methods hand back: the parsed body, or
    [None] once the failure has been logged as a warning. *)
Definition captured (b : result bytes) : pyval :=
  match b with
  | Ok body_bytes =>
      match _parse_body_bytes ext config body_bytes with
      | Ok v => v
      | Raise _ => PyNone
      end
  | Raise _ => PyNone
  end.

Definition captured_response (rb : ResponseBody) : pyval :=
  match rb with
  | Streaming => streaming_marker
  | Body b => captured (Ok b)
  | NoBody => PyNone
  end.

(** The user identifier [_capture_request] reads from the request state. *)
Definition user_id_of (st : State) : pyval :=
  match state_user_id st with
  | Some direct => direct
  | None =>
      match state_user st with
      | Some user =>
          match user_obj_id user with Some id => id | None => PyNone end
      | None => PyNone
      end
  end.

(** The record [_capture_request] returns. *)
Definition request_record (request : Request) (cid : option string)
  : RequestData :=
  {| rd_method := method request;
     rd_path := url_path request;
     rd_query_params :=
       if log_query_params config then Some (query_params request) else None;
     rd_headers :=
       if log_request_headers config
       then Some (redact_headers ext (headers request)) else None;
     rd_body := captured (body request);
     rd_user_id := user_id_of (state request);
     rd_correlation_id := cid |}.

(** The record [_capture_response] returns. *)
Definition response_record (response : Response) (duration_ms : Q)
  : ResponseData :=
  {| rs_status_code := status_code response;
     rs_headers :=
       if log_response_headers config
       then Some (redact_headers ext (response_headers response)) else None;
     rs_body := captured_response (response_body response);
     rs_duration_ms := duration_ms |}.
End Captured.

(** The response [dispatch] returns: the handler's response with the
    correlation header set when there is a correlation id. *)
Definition with_correlation_header (config : ObservabilityConfig)
           (cid : option string) (response : Response) : Response :=
  match cid with
  | Some c =>
      if opt_truthy cid
      then set_header response (correlation_id_header config) c
      else response
  | None => response
  end.

Definition failure_record ext config (request : Request) (rd : RequestData)
           (e : exn) (d : Q) : LogRecord :=
  {| lr_level := ERROR;
     lr_message := failed_message ext request e d;
     lr_fields := Failed (service_name config) rd (exn_type_name e)
                         (exn_str e) d |}.

Definition success_record ext config (request : Request) (response : Response)
           (rd : RequestData) (rs : ResponseData) (d : Q)
           (ev : option BusinessEvent) : LogRecord :=
  {| lr_level := INFO;
     lr_message := completed_message ext request response d;
     lr_fields := Completed (service_name config) rd rs d ev |}.

(** What one run of [dispatch] gives back and the record it ends with. *)
Definition outcome_spec ext config (request : Request)
           (call_next : Request -> result Response) (cid : option string)
           (out : result Response) (rec : LogRecord) : Prop :=
  let rd := request_record ext config request cid in
  match call_next request with
  | Raise e => out = Raise e /\ exists d, rec = failure_record ext config request rd e d
  | Ok response =>
      exists d,
        let rs := response_record ext config response d in
        let response' := with_correlation_header config cid response in
        match _extract_business_event ext config request rd rs with
        | Ok ev => out = Ok response' /\
                   rec = success_record ext config request response' rd rs d ev
        | Raise e => out = Raise e /\
                     exists d', rec = failure_record ext config request rd e d'
        end
  end.

(** [w'] is [w] after the records [l] were emitted, with the same correlation
    id. *)
Definition step_of (w w' : world) (l : list LogRecord) : Prop :=
  sink w' = (sink w ++ l)%list /\ correlation w' = correlation w.




(** The collaborators [ext] with another redaction function. *)
Definition with_redact_data (ext : Collaborators)
           (redact : pyval -> list string -> pyval) : Collaborators :=
  Build_Collaborators (json_loads ext) (decode_replace ext) redact
                      (redact_headers ext) (re_match ext) (format_2f ext).

(* ------------------------------------------------------------------ *)
(** ** Requests and configurations used as concrete inputs *)

Module Example.

(** The configuration of [examples/simple_app.py]. *)
Definition folder_created : BusinessEventConfig :=
  {| event_type := "folder.created";
     extract_from_request := ["name"; "parent_id"];
     extract_from_response := [];
     extract_from_path := [] |}.

Definition folder_deleted : BusinessEventConfig :=
  {| event_type := "folder.deleted";
     extract_from_request := [];
     extract_from_response := [];
     extract_from_path := ["folder_id"] |}.

Definition with_events (events : list (string * BusinessEventConfig))
  : ObservabilityConfig :=
  {| service_name := "example-api";
     correlation_id_header := "X-Correlation-ID";
     log_request_headers := true;
     log_response_headers := false;
     log_query_params := true;
     payload_size_limit := 10240;
     additional_redaction_patterns := [];
     business_events := events |}.

Definition config : ObservabilityConfig :=
  with_events [("POST /folders", folder_created);
               ("DELETE /folders/{folder_id}", folder_deleted)].

(** Two patterns that both match [GET /items/special]. *)
Definition item_read : BusinessEventConfig :=
  {| event_type := "item.read";
     extract_from_request := [];
     extract_from_response := [];
     extract_from_path := ["item_id"] |}.

Definition item_special : BusinessEventConfig :=
  {| event_type := "item.special";
     extract_from_request := [];
     extract_from_response := [];
     extract_from_path := [] |}.

Definition overlapping : ObservabilityConfig :=
  with_events [("POST /items", folder_created);
               ("GET /items/{item_id}", item_read);
               ("GET /items/special", item_special)].

Definition anonymous : State :=
  {| state_user_id := None; state_user := None |}.

(** Payloads are written with an apostrophe wherever the payload has a
    double quote. *)
Definition quote_char (c : ascii) : ascii :=
  if Ascii.eqb c "'" then ascii_of_nat 34 else c.

Definition payload_bytes (text : string) : bytes :=
  bytes_of_string (str_of (map quote_char (chars text))).

Definition request_with (m path : string) (payload : string) (st : State)
  : Request :=
  {| method := m;
     url_path := path;
     headers := [("x-correlation-id", "abc123")];
     query_params := [];
     body := Ok (payload_bytes payload);
     state := st |}.

Definition respond (status : Z) (payload : string) : Response :=
  {| status_code := status;
     response_headers := [("content-type", "application/json")];
     response_body := Body (payload_bytes payload) |}.

Definition returns (r : Response) : Request -> result Response :=
  fun _ => Ok r.
Definition raises (e : exn) : Request -> result Response :=
  fun _ => Raise e.

Definition clock0 : list Q := [inject_Z 100; 100125 # 1000; 100250 # 1000].

Definition world0 : world := initial_world clock0.

End Example.

(* ------------------------------------------------------------------ *)
(** ** A run of [dispatch], step by step *)

Definition warning_record (msg : string) : LogRecord :=
  {| lr_level := WARNING; lr_message := msg; lr_fields := NoFields |}.

(** The exception that makes a body capture give up: the one raised while
    the body was read, or the one [_parse_body_bytes] lets through. *)
Definition capture_failure (ext : Collaborators) (config : ObservabilityConfig)
           (b : result bytes) : option exn :=
  match b with
  | Raise e => Some e
  | Ok body_bytes =>
      match _parse_body_bytes ext config body_bytes with
      | Raise e => Some e
      | Ok _ => None
      end
  end.

Definition request_body_warnings (ext : Collaborators)
           (config : ObservabilityConfig) (request : Request)
  : list LogRecord :=
  match capture_failure ext config (body request) with
  | Some e =>
      [warning_record ("Failed to capture request body: " ++ exn_str e)]
  | None => []
  end.

Definition response_body_warnings (ext : Collaborators)
           (config : ObservabilityConfig) (response : Response)
  : list LogRecord :=
  match response_body response with
  | Body b =>
      match capture_failure ext config (Ok b) with
      | Some e =>
          [warning_record ("Failed to capture response body: " ++ exn_str e)]
      | None => []
      end
  | _ => []
  end.

(** The [k]-th reading the clock of [w] will give. *)
Definition reading (w : world) (k : nat) : Q := nth k (clock w) 0%Q.

(** The logging context once [dispatch] has bound what it binds. *)
Definition bound_context (w : world) (request : Request) : dict pyval :=
  let bound :=
    dict_set (context w) "correlation_id" (opt_str (correlation w)) in
  let user_id := user_id_of (state request) in
  if truthy user_id then dict_set bound "user_id" user_id else bound.

(** [w'] is [w] after the records [l] were emitted and [n] readings of the
    clock were taken, with [c] as logging context. *)
Definition run_to (w w' : world) (l : list LogRecord) (n : nat)
           (c : dict pyval) : Prop :=
  sink w' = (sink w ++ l)%list /\
  correlation w' = correlation w /\
  clock w' = skipn n (clock w) /\
  context w' = c.

(** The outcome of a run and the records it emits, read off the clock and
    the handler. *)
Definition trace (ext : Collaborators) (config : ObservabilityConfig)
           (request : Request) (call_next : Request -> result Response)
           (w : world) : result Response * list LogRecord * nat :=
  let cid := correlation w in
  let rd := request_record ext config request cid in
  let before := request_body_warnings ext config request in
  match call_next request with
  | Raise e =>
      (Raise e,
       (before ++ [failure_record ext config request rd e
                     (elapsed_ms (reading w 0) (reading w 1))])%list,
       2%nat)
  | Ok response =>
      let d := elapsed_ms (reading w 0) (reading w 1) in
      let rs := response_record ext config response d in
      let response' := with_correlation_header config cid response in
      let after := response_body_warnings ext config response in
      match _extract_business_event ext config request rd rs with
      | Ok ev =>
          (Ok response',
           (before ++ after
              ++ [success_record ext config request response' rd rs d ev])%list,
           2%nat)
      | Raise e =>
          (Raise e,
           (before ++ after
              ++ [failure_record ext config request rd e
                    (elapsed_ms (reading w 0) (reading w 2))])%list,
           3%nat)
      end
  end.

Definition duration_of (r : LogRecord) : option Q :=
  match lr_fields r with
  | Completed _ _ _ d _ => Some d
  | Failed _ _ _ _ d => Some d
  | NoFields => None
  end.

(** ** Looking fields up *)

(** The value a list of requested field names finds for [k] in a mapping. *)
Definition requested {V} (fields : list string) (source : dict V)
           (k : string) : option V :=
  if existsb (String.eqb k) fields then dict_get source k else None.

(** The same in a captured body, which yields fields only when it is a
    mapping. *)
Definition requested_in_body (fields : list string) (captured_body : pyval)
           (k : string) : option pyval :=
  match captured_body with
  | PyDict d => requested fields d k
  | _ => None
  end.

(* ------------------------------------------------------------------ *)
(** ** Path templates *)

(** An ordinary character of a pattern: one the engine matches literally. *)
Definition plain (c : ascii) : bool :=
  match classify c with Lit _ => true | _ => false end.

Definition plain_text (t : string) : bool := forallb plain (chars t).

Definition starts_with_slash (t : string) : bool :=
  match t with
  | String c _ => Ascii.eqb c slash
  | EmptyString => false
  end.

(** A placeholder name: not empty, no closing brace. *)
Definition good_name (n : string) : bool :=
  negb (String.eqb n "") && negb (existsb (Ascii.eqb rbrace) (chars n)).

(** The value of a path parameter: not empty, no slash. *)
Definition good_value (v : string) : bool :=
  negb (String.eqb v "") && negb (existsb (Ascii.eqb slash) (chars v)).

(** A path template in the usual form: a text, then placeholders each
    followed by a text. *)
Definition path_template : Type := string * list (string * string).

Fixpoint render_params (params : list (string * string)) : string :=
  match params with
  | [] => ""
  | (n, t) :: rest => "{" ++ n ++ "}" ++ t ++ render_params rest
  end.

Definition render (tpl : path_template) : string :=
  fst tpl ++ render_params (snd tpl).

(** The path a template stands for once its placeholders have values. *)
Fixpoint fill_params (params : list (string * string)) (values : list string)
  : string :=
  match params, values with
  | (n, t) :: rest, v :: vs => v ++ t ++ fill_params rest vs
  | _, _ => ""
  end.

Definition fill (tpl : path_template) (values : list string) : string :=
  fst tpl ++ fill_params (snd tpl) values.

(** Every text is made of ordinary characters, and the text after a
    placeholder starts with a slash, or is empty at the very end. *)
Fixpoint well_formed_params (params : list (string * string)) : bool :=
  match params with
  | [] => true
  | (n, t) :: rest =>
      good_name n && plain_text t
      && (starts_with_slash t
          || (String.eqb t "" && match rest with [] => true | _ => false end))
      && well_formed_params rest
  end.

Definition well_formed (tpl : path_template) : bool :=
  plain_text (fst tpl) && well_formed_params (snd tpl).

Definition good_values (tpl : path_template) (values : list string) : bool :=
  Nat.eqb (List.length values) (List.length (snd tpl))
  && forallb good_value values.

(** The regular expression text of the placeholders, [seg] standing for each
    of them. *)
Fixpoint regex_params (seg : list ascii) (params : list (string * string))
  : list ascii :=
  match params with
  | [] => []
  | (n, t) :: rest => seg ++ chars t ++ regex_params seg rest
  end.


(** The atoms the placeholders and the texts after them are read as. *)
Fixpoint atoms_params (captured : bool) (params : list (string * string))
  : list atom :=
  match params with
  | [] => []
  | (n, t) :: rest =>
      Seg captured :: map Lit (chars t) ++ atoms_params captured rest
  end.

(** The text of a placeholder in the regular expression. *)
Definition seg_text (captured : bool) : list ascii :=
  if captured then chars "([^/]+)" else chars "[^/]+".
(* ------------------------------------------------------------------ *)
(** * Properties *)

Local Open Scope list_scope.

(** ** Running the monad *)

Lemma step_of_trans w1 w2 w3 l1 l2 :
  step_of w1 w2 l1 -> step_of w2 w3 l2 -> step_of w1 w3 (l1 ++ l2).
Proof.
  intros [H1 H1'] [H2 H2']. split.
  - rewrite H2, H1. now rewrite app_assoc.
  - congruence.
Qed.

Lemma time_time_step w :
  exists t w', time_time w = (Ok t, w') /\ step_of w w' [].
Proof.
  unfold time_time, step_of. destruct (clock w) as [|t ts].
  - exists 0%Q, w. now rewrite app_nil_r.
  - eexists _, _. split; [reflexivity|]. simpl. now rewrite app_nil_r.
Qed.

Lemma bind_contextvars_step k v w :
  exists w', bind_contextvars k v w = (Ok tt, w') /\ step_of w w' [].
Proof.
  eexists. split; [reflexivity|]. split; simpl; [now rewrite app_nil_r | reflexivity].
Qed.

Lemma emit_step l m f w :
  exists w', emit l m f w = (Ok tt, w') /\
             step_of w w' [{| lr_level := l; lr_message := m; lr_fields := f |}].
Proof.
  eexists. split; [reflexivity|]. split; reflexivity.
Qed.

Lemma capture_request_body_step ext config request w :
  exists warns w',
    _capture_request_body ext config request w
      = (Ok (captured ext config (body request)), w') /\
    step_of w w' warns /\ forallb is_plain_warning warns = true.
Proof.
  unfold _capture_request_body, try_except, bind, lift, captured.
  destruct (body request) as [b|e].
  - destruct (_parse_body_bytes ext config b) as [v|e].
    + exists [], w. repeat split. simpl. now rewrite app_nil_r.
    + eexists [_], _. repeat split.
  - eexists [_], _. repeat split.
Qed.

Lemma capture_response_body_step ext config response w :
  exists warns w',
    _capture_response_body ext config response w
      = (Ok (captured_response ext config (response_body response)), w') /\
    step_of w w' warns /\ forallb is_plain_warning warns = true.
Proof.
  unfold _capture_response_body, try_except, lift, ret, captured_response, captured.
  destruct (response_body response) as [|b|].
  - exists [], w. repeat split. simpl. now rewrite app_nil_r.
  - destruct (_parse_body_bytes ext config b) as [v|e].
    + exists [], w. repeat split. simpl. now rewrite app_nil_r.
    + eexists [_], _. repeat split.
  - exists [], w. repeat split. simpl. now rewrite app_nil_r.
Qed.

Lemma capture_request_step ext config request cid w :
  exists warns w',
    _capture_request ext config request cid w
      = (Ok (request_record ext config request cid), w') /\
    step_of w w' warns /\ forallb is_plain_warning warns = true.
Proof.
  destruct (capture_request_body_step ext config request w)
    as (warns & w' & E & S & W).
  exists warns, w'. split; [|now split].
  unfold _capture_request, bind. rewrite E. reflexivity.
Qed.

Lemma capture_response_step ext config response d w :
  exists warns w',
    _capture_response ext config response d w
      = (Ok (response_record ext config response d), w') /\
    step_of w w' warns /\ forallb is_plain_warning warns = true.
Proof.
  destruct (capture_response_body_step ext config response w)
    as (warns & w' & E & S & W).
  exists warns, w'. split; [|now split].
  unfold _capture_response, bind. rewrite E. reflexivity.
Qed.

Lemma dispatch_run ext config request call_next w :
  exists warns rec out w',
    dispatch ext config request call_next w = (out, w') /\
    step_of w w' (warns ++ [rec]) /\
    forallb is_plain_warning warns = true /\
    outcome_spec ext config request call_next (correlation w) out rec.
Proof.
  unfold dispatch, outcome_spec.
  unfold bind at 1. change (get_correlation_id w) with (Ok (correlation w), w).
  cbv beta iota.
  set (cid := correlation w).
  destruct (bind_contextvars_step "correlation_id" (opt_str cid) w)
    as (w1 & E1 & S1).
  unfold bind at 1. rewrite E1.
  destruct (time_time_step w1) as (t0 & w2 & E2 & S2).
  unfold bind at 1. rewrite E2.
  destruct (capture_request_step ext config request cid w2)
    as (warns1 & w3 & E3 & S3 & W3).
  unfold bind at 1. rewrite E3.
  set (rd := request_record ext config request cid).
  assert (exists w4, (if truthy (rd_user_id rd)
                      then bind_contextvars "user_id" (rd_user_id rd)
                      else ret tt) w3 = (Ok tt, w4) /\ step_of w3 w4 [])
    as (w4 & E4 & S4).
  { destruct (truthy (rd_user_id rd)).
    - apply bind_contextvars_step.
    - exists w3. split; [reflexivity|]. split; [now rewrite app_nil_r|reflexivity]. }
  unfold bind at 1. rewrite E4.
  assert (S04 : step_of w w4 warns1).
  { pose proof (step_of_trans S1 (step_of_trans S2 (step_of_trans S3 S4))) as H.
    simpl in H. now rewrite app_nil_r in H. }
  clear E1 E2 E3 E4 S1 S2 S3 S4.
  unfold try_except, bind at 1, lift.
  destruct (call_next request) as [response|e].
  - destruct (time_time_step w4) as (t1 & w5 & E5 & S5).
    unfold bind at 1. rewrite E5.
    set (d := elapsed_ms t0 t1).
    destruct (capture_response_step ext config response d w5)
      as (warns2 & w6 & E6 & S6 & W6).
    unfold bind at 1. rewrite E6.
    fold (with_correlation_header config cid response).
    set (rs := response_record ext config response d).
    unfold bind at 1.
    destruct (_extract_business_event ext config request rd rs) as [ev|e] eqn:EV.
    + unfold bind, ret.
      destruct (emit_step INFO
                  (completed_message ext request
                     (with_correlation_header config cid response) d)
                  (Completed (service_name config) rd rs d ev) w6)
        as (w7 & E7 & S7).
      unfold logger_info. rewrite E7.
      eexists (warns1 ++ warns2), _, _, _. split; [reflexivity|].
      split; [|split].
      * pose proof (step_of_trans S04 (step_of_trans S5 (step_of_trans S6 S7))) as H.
        simpl in H. rewrite app_assoc in H. exact H.
      * rewrite forallb_app, W3, W6. reflexivity.
      * exists d. fold rs. rewrite EV. split; reflexivity.
    + destruct (time_time_step w6) as (t2 & w7 & E7 & S7).
      unfold bind at 1. rewrite E7.
      unfold bind, raise, logger_error.
      destruct (emit_step ERROR
                  (failed_message ext request e (elapsed_ms t0 t2))
                  (Failed (service_name config) rd (exn_type_name e)
                          (exn_str e) (elapsed_ms t0 t2)) w7)
        as (w8 & E8 & S8).
      rewrite E8.
      eexists (warns1 ++ warns2), _, _, _. split; [reflexivity|].
      split; [|split].
      * pose proof (step_of_trans S04 (step_of_trans S5 (step_of_trans S6
                      (step_of_trans S7 S8)))) as H.
        simpl in H. rewrite app_assoc in H. exact H.
      * rewrite forallb_app, W3, W6. reflexivity.
      * exists d. fold rs. rewrite EV. split; [reflexivity|].
        exists (elapsed_ms t0 t2). reflexivity.
  - destruct (time_time_step w4) as (t2 & w7 & E7 & S7).
    unfold bind at 1. rewrite E7.
    unfold bind, raise, logger_error.
    destruct (emit_step ERROR
                (failed_message ext request e (elapsed_ms t0 t2))
                (Failed (service_name config) rd (exn_type_name e)
                        (exn_str e) (elapsed_ms t0 t2)) w7)
      as (w8 & E8 & S8).
    rewrite E8.
    eexists warns1, _, _, _. split; [reflexivity|].
    split; [|split].
    * pose proof (step_of_trans S04 (step_of_trans S7 S8)) as H.
      exact H.
    * exact W3.
    * split; [reflexivity|]. exists (elapsed_ms t0 t2). reflexivity.
Qed.

(** ** Records of one run *)

Lemma emitted_step w w' l : step_of w w' l -> emitted w w' = l.
Proof.
  intros [H _]. unfold emitted. rewrite H.
  rewrite skipn_app, skipn_all, Nat.sub_diag. reflexivity.
Qed.

Lemma dispatch_emitted ext config request call_next w :
  exists warns rec,
    emitted w (snd (dispatch ext config request call_next w)) = warns ++ [rec] /\
    forallb is_plain_warning warns = true /\
    outcome_spec ext config request call_next (correlation w)
                 (fst (dispatch ext config request call_next w)) rec.
Proof.
  destruct (dispatch_run ext config request call_next w)
    as (warns & rec & out & w' & E & S & W & O).
  exists warns, rec. rewrite E. simpl. split; [|split]; trivial.
  now apply emitted_step.
Qed.

Lemma plain_warning_fields r :
  is_plain_warning r = true ->
  is_info r = false /\ is_error r = false /\
  request_of r = None /\ response_of r = None.
Proof.
  unfold is_plain_warning, is_info, is_error, request_of, response_of.
  destruct (lr_level r), (lr_fields r); intros H; try discriminate H; auto.
Qed.

Lemma in_warnings l r :
  forallb is_plain_warning l = true -> In r l -> is_plain_warning r = true.
Proof.
  intros H I. rewrite forallb_forall in H. now apply H.
Qed.

Lemma count_app p l1 l2 : count p (l1 ++ l2) = (count p l1 + count p l2)%nat.
Proof. unfold count. now rewrite filter_app, length_app. Qed.

Lemma count_warnings p l :
  (forall r, is_plain_warning r = true -> p r = false) ->
  forallb is_plain_warning l = true -> count p l = 0%nat.
Proof.
  intros Hp. unfold count. induction l as [|r l IH]; simpl; intros H.
  - reflexivity.
  - apply andb_prop in H as [Hr Hl]. rewrite (Hp r Hr). auto.
Qed.

(** The record that ends a run carries the request record; it is the success
    record exactly when [dispatch] returns a response. *)
Lemma outcome_spec_record ext config request call_next cid out rec :
  outcome_spec ext config request call_next cid out rec ->
  request_of rec = Some (request_record ext config request cid) /\
  ((exists r, out = Ok r) /\ is_info rec = true /\ is_error rec = false \/
   (exists e, out = Raise e) /\ is_info rec = false /\ is_error rec = true).
Proof.
  unfold outcome_spec.
  destruct (call_next request) as [response|e].
  - intros [d H]. cbv zeta in H.
    destruct (_extract_business_event ext config request _ _) as [ev|e].
    + destruct H as [-> ->]. split; [reflexivity|]. left. eauto.
    + destruct H as [-> [d' ->]]. split; [reflexivity|]. right. eauto.
  - intros [-> [d ->]]. split; [reflexivity|]. right. eauto.
Qed.

(** X1. Every run of [dispatch] emits exactly one record that is not a warning:
    an info record when it returns a response, an error record when it
    raises. *)
Theorem dispatch_emits_one_record ext config request call_next w :
  let run := dispatch ext config request call_next w in
  let records := emitted w (snd run) in
  (count is_info records + count is_error records = 1)%nat /\
  ((exists r, fst run = Ok r) -> count is_info records = 1%nat) /\
  ((exists e, fst run = Raise e) -> count is_error records = 1%nat).
Proof.
  cbv zeta.
  destruct (dispatch_emitted ext config request call_next w)
    as (warns & rec & E & W & O).
  rewrite E, !count_app.
  rewrite (count_warnings is_info), (count_warnings is_error); trivial;
    try (intros r Hr; now apply plain_warning_fields in Hr).
  apply outcome_spec_record in O as [_ O]. unfold count. simpl.
  destruct O as [([r Hr] & -> & ->) | ([e He] & -> & ->)]; simpl;
    rewrite ?Hr, ?He; repeat split; try reflexivity;
    intros [x Hx]; discriminate Hx.
Qed.

(** ** Body capture *)

Lemma parse_structured ext config B j :
  B <> [] -> len B <= payload_size_limit config ->
  json_loads ext B = Decoded j ->
  _parse_body_bytes ext config B
    = Ok (redact_data ext j (additional_redaction_patterns config)).
Proof.
  intros HB HL HJ. unfold _parse_body_bytes.
  destruct B as [|b B']; [congruence|].
  replace (payload_size_limit config <? len (b :: B')) with false
    by (symmetry; apply Z.ltb_ge; exact HL).
  now rewrite HJ.
Qed.

(** The bodies in the records of a run are the captured bodies. *)
Lemma logged_bodies ext config request call_next w :
  let records := emitted w (snd (dispatch ext config request call_next w)) in
  (exists rec rd, In rec records /\ request_of rec = Some rd) /\
  (forall rec rd,
      In rec records -> request_of rec = Some rd ->
      rd_body rd = captured ext config (body request)) /\
  (forall rec rs,
      In rec records -> response_of rec = Some rs ->
      exists response,
        call_next request = Ok response /\
        rs_body rs = captured_response ext config (response_body response)).
Proof.
  cbv zeta.
  destruct (dispatch_emitted ext config request call_next w)
    as (warns & final & E & W & O).
  rewrite E.
  assert (Hw : forall rec, In rec (warns ++ [final]) ->
                 rec = final \/ request_of rec = None /\ response_of rec = None).
  { intros rec I. apply in_app_or in I as [I | [<- | []]]; [right|now left].
    apply (in_warnings _ _ W) in I.
    now apply plain_warning_fields in I as (_ & _ & R1 & R2). }
  pose proof O as OR. apply outcome_spec_record in OR as [OR _].
  split; [|split].
  - exists final. eexists. split; [apply in_or_app; right; now left | exact OR].
  - intros rec rd I R. destruct (Hw rec I) as [-> | [R1 _]]; [|congruence].
    rewrite OR in R. now injection R as <-.
  - intros rec rs I R. destruct (Hw rec I) as [-> | [_ R2]]; [|congruence].
    unfold outcome_spec in O.
    destruct (call_next request) as [response|e].
    + exists response. split; [reflexivity|].
      destruct O as [d O]. cbv zeta in O.
      destruct (_extract_business_event ext config request _ _) as [ev|e].
      * destruct O as [_ ->]. simpl in R. now injection R as <-.
      * destruct O as [_ [d' ->]]. discriminate R.
    + destruct O as [_ [d ->]]. discriminate R.
Qed.

(** C1. A request body that was decoded as JSON reaches the log record only
    as the result of [redact_data]: every record a run of [dispatch] emits
    that carries the request record, the success record and the failure record
    alike, holds the redacted document, and such a record is emitted; the
    same holds of a JSON response body in the success record. *)
Theorem structured_bodies_are_redacted
        ext config request call_next w B j :
  body request = Ok B -> B <> [] ->
  len B <= payload_size_limit config ->
  json_loads ext B = Decoded j ->
  let records := emitted w (snd (dispatch ext config request call_next w)) in
  let patterns := additional_redaction_patterns config in
  (exists rec rd, In rec records /\ request_of rec = Some rd) /\
  (forall rec rd,
      In rec records -> request_of rec = Some rd ->
      rd_body rd = redact_data ext j patterns) /\
  (forall rec rs response B' j',
      In rec records -> response_of rec = Some rs ->
      call_next request = Ok response ->
      response_body response = Body B' -> B' <> [] ->
      len B' <= payload_size_limit config ->
      json_loads ext B' = Decoded j' ->
      rs_body rs = redact_data ext j' patterns).
Proof.
  intros HB HN HL HJ. cbv zeta.
  destruct (logged_bodies ext config request call_next w) as (H1 & H2 & H3).
  split; [exact H1|]. split.
  - intros rec rd I R. rewrite (H2 rec rd I R).
    unfold captured. rewrite HB.
    now rewrite (parse_structured ext config HN HL HJ).
  - intros rec rs response B' j' I R HC HB' HN' HL' HJ'.
    destruct (H3 rec rs I R) as (response' & HC' & ->).
    rewrite HC in HC'. injection HC' as <-. rewrite HB'. simpl.
    now rewrite (parse_structured ext config HN' HL' HJ').
Qed.

Lemma structured_bodies_are_redacted_witness :
  let request :=
    Example.request_with "POST" "/folders"
      "{'name':'Docs','parent_id':'r1','password':'x'}" Example.anonymous in
  let handler := Example.raises (ValueError "boom") in
  exists rec rd,
    In rec (emitted Example.world0
              (snd (dispatch Reference.ext Example.config request handler
                             Example.world0))) /\
    request_of rec = Some rd /\
    rd_body rd = PyDict [("name", PyStr "Docs"); ("parent_id", PyStr "r1");
                         ("password", PyStr Reference.MASK)].
Proof.
  cbv zeta.
  pose proof (structured_bodies_are_redacted
                Reference.ext Example.config
                (Example.request_with "POST" "/folders"
                   "{'name':'Docs','parent_id':'r1','password':'x'}"
                   Example.anonymous)
                (Example.raises (ValueError "boom")) Example.world0
                (B := Example.payload_bytes
                        "{'name':'Docs','parent_id':'r1','password':'x'}")
                (j := PyDict [("name", PyStr "Docs");
                              ("parent_id", PyStr "r1");
                              ("password", PyStr "x")])) as T.
  cbv zeta in T.
  destruct T as ((rec & rd & I & R) & H & _).
  - reflexivity.
  - discriminate.
  - vm_compute. discriminate.
  - vm_compute. reflexivity.
  - exists rec, rd. split; [exact I|]. split; [exact R|].
    exact (H rec rd I R).
Defined.

Lemma slice_to_nonneg {A} (l : list A) n :
  0 <= n -> slice_to l n = firstn (Z.to_nat n) l.
Proof.
  intros H. unfold slice_to.
  now replace (0 <=? n) with true by (symmetry; now apply Z.leb_le).
Qed.

Lemma parse_oversized ext config B :
  0 <= payload_size_limit config ->
  payload_size_limit config < len B ->
  _parse_body_bytes ext config B
    = Ok (truncated (len B)
            (decode_replace ext
               (firstn (Z.to_nat (payload_size_limit config)) B))).
Proof.
  intros H0 HL. unfold _parse_body_bytes.
  destruct B as [|b B']; [unfold len in HL; simpl in HL; lia|].
  replace (payload_size_limit config <? len (b :: B')) with true
    by (symmetry; now apply Z.ltb_lt).
  now rewrite slice_to_nonneg.
Qed.

Lemma parse_not_json ext config B :
  B <> [] -> len B <= payload_size_limit config ->
  json_loads ext B = JSONDecodeError ->
  _parse_body_bytes ext config B = Ok (PyStr (decode_replace ext B)).
Proof.
  intros HB HL HJ. unfold _parse_body_bytes.
  destruct B as [|b B']; [congruence|].
  replace (payload_size_limit config <? len (b :: B')) with false
    by (symmetry; now apply Z.ltb_ge).
  now rewrite HJ.
Qed.

Lemma parse_raises ext config B e :
  B <> [] -> len B <= payload_size_limit config ->
  json_loads ext B = JsonRaises e ->
  _parse_body_bytes ext config B = Raise e.
Proof.
  intros HB HL HJ. unfold _parse_body_bytes.
  destruct B as [|b B']; [congruence|].
  replace (payload_size_limit config <? len (b :: B')) with false
    by (symmetry; now apply Z.ltb_ge).
  now rewrite HJ.
Qed.

Lemma text_is_not_truncated s : ~ has_truncated_shape (PyStr s).
Proof. intros (n & p & H). discriminate H. Qed.

Lemma none_is_not_truncated : ~ has_truncated_shape PyNone.
Proof. intros (n & p & H). discriminate H. Qed.

(** C2, as amended.  For a positive limit: a payload within the limit never
    comes back in the truncated shape unless the payload itself decodes as a
    JSON document and the value returned is that document, redacted; a
    payload over the limit gives, without raising, the truncated shape with
    the length of the payload and the decoding of its first [limit] bytes. *)
Theorem parse_body_bytes_size_limit ext config B :
  0 < payload_size_limit config ->
  (len B <= payload_size_limit config ->
   forall v,
     _parse_body_bytes ext config B = Ok v ->
     has_truncated_shape v ->
     exists document,
       json_loads ext B = Decoded document /\
       v = redact_data ext document (additional_redaction_patterns config)) /\
  (payload_size_limit config < len B ->
   _parse_body_bytes ext config B
     = Ok (truncated (len B)
             (decode_replace ext
                (firstn (Z.to_nat (payload_size_limit config)) B)))).
Proof.
  intros H0. split.
  - intros HL v HP HS.
    destruct B as [|b B'].
    + injection HP as <-. now apply none_is_not_truncated in HS.
    + destruct (json_loads ext (b :: B')) as [document| |e] eqn:HJ.
      * exists document. split; [reflexivity|].
        rewrite (@parse_structured ext config (b :: B') document) in HP;
          [now injection HP as <- | discriminate | exact HL | exact HJ].
      * rewrite (@parse_not_json ext config (b :: B')) in HP;
          [|discriminate | exact HL | exact HJ].
        injection HP as <-. now apply text_is_not_truncated in HS.
      * rewrite (@parse_raises ext config (b :: B') e) in HP;
          [discriminate HP | discriminate | exact HL | exact HJ].
  - apply parse_oversized. lia.
Qed.

Lemma parse_body_bytes_size_limit_witness :
  (exists document,
      json_loads Reference.ext
        (Example.payload_bytes
           "{'_truncated': true, '_original_size': 1000000, '_preview': 'x'}")
      = Decoded document /\
      truncated 1000000 "x" = redact_data Reference.ext document []) /\
  _parse_body_bytes Reference.ext
    {| service_name := "example-api";
       correlation_id_header := "X-Correlation-ID";
       log_request_headers := false; log_response_headers := false;
       log_query_params := false; payload_size_limit := 4;
       additional_redaction_patterns := []; business_events := [] |}
    (Example.payload_bytes "{'password': 'hunter2'}")
  = Ok (truncated 23 (decode_replace Reference.ext
                        (Example.payload_bytes "{'pa"))).
Proof.
  split.
  - refine (proj1 (parse_body_bytes_size_limit Reference.ext Example.config
                     (Example.payload_bytes
                        "{'_truncated': true, '_original_size': 1000000, '_preview': 'x'}")
                     _) _ (truncated 1000000 "x") _ _).
    + reflexivity.
    + vm_compute. discriminate.
    + vm_compute. reflexivity.
    + now exists 1000000, "x"%string.
  - refine (eq_trans
              (proj2 (parse_body_bytes_size_limit Reference.ext _
                        (Example.payload_bytes "{'password': 'hunter2'}") _)
                     _) _).
    + reflexivity.
    + vm_compute. reflexivity.
    + vm_compute. reflexivity.
Defined.

(** C2, as stated, fails: a payload far below the limit whose JSON is a
    mapping with the three keys of the truncation marker comes back as that
    mapping, which has the truncated shape and announces a size that is not
    the size of the payload. *)
Lemma small_body_with_truncated_shape :
  let B := Example.payload_bytes
    "{'_truncated': true, '_original_size': 1000000, '_preview': 'x'}" in
  0 < payload_size_limit Example.config /\
  len B <= payload_size_limit Example.config /\
  _parse_body_bytes Reference.ext Example.config B = Ok (truncated 1000000 "x") /\
  has_truncated_shape (truncated 1000000 "x") /\
  len B <> 1000000.
Proof.
  cbv zeta. split; [reflexivity|]. split; [vm_compute; discriminate|].
  split; [vm_compute; reflexivity|]. split.
  - now exists 1000000, "x"%string.
  - vm_compute. discriminate.
Qed.

(** X23. A payload over the limit, and a payload within the limit on which
    [json.loads] raises [JSONDecodeError], are logged as decoded text and
    nothing else: the preview is the decoding of the first [limit] bytes, the
    raw text the decoding of all of them, whatever the redaction function is;
    that value is the body of the request record, and of the response record,
    in every record emitted. *)
Theorem oversized_and_non_json_bodies_are_not_redacted
        ext config request call_next w B :
  0 < payload_size_limit config ->
  payload_size_limit config < len B \/
  (B <> [] /\ len B <= payload_size_limit config /\
   json_loads ext B = JSONDecodeError) ->
  let limit := payload_size_limit config in
  let logged :=
    if limit <? len B
    then truncated (len B) (decode_replace ext (firstn (Z.to_nat limit) B))
    else PyStr (decode_replace ext B) in
  let records := emitted w (snd (dispatch ext config request call_next w)) in
  (forall redact,
      _parse_body_bytes (with_redact_data ext redact) config B = Ok logged) /\
  (body request = Ok B ->
   forall rec rd,
     In rec records -> request_of rec = Some rd -> rd_body rd = logged) /\
  (forall response,
      call_next request = Ok response -> response_body response = Body B ->
      forall rec rs,
        In rec records -> response_of rec = Some rs -> rs_body rs = logged).
Proof.
  intros H0 HB. cbv zeta.
  assert (P : forall e, json_loads e = json_loads ext ->
                        decode_replace e = decode_replace ext ->
              _parse_body_bytes e config B
              = Ok (if payload_size_limit config <? len B
                    then truncated (len B)
                           (decode_replace ext
                              (firstn (Z.to_nat (payload_size_limit config)) B))
                    else PyStr (decode_replace ext B))).
  { intros e Hj Hd. destruct HB as [HL | (HN & HL & HJ)].
    - rewrite parse_oversized by lia. rewrite Hd.
      now replace (payload_size_limit config <? len B) with true
        by (symmetry; now apply Z.ltb_lt).
    - rewrite parse_not_json; [|exact HN | exact HL | now rewrite Hj].
      rewrite Hd.
      now replace (payload_size_limit config <? len B) with false
        by (symmetry; now apply Z.ltb_ge). }
  destruct (logged_bodies ext config request call_next w) as (_ & H2 & H3).
  split; [|split].
  - intros redact. now apply P.
  - intros HR rec rd I R. rewrite (H2 rec rd I R).
    unfold captured. rewrite HR. now rewrite P.
  - intros response HC HR rec rs I R.
    destruct (H3 rec rs I R) as (response' & HC' & ->).
    rewrite HC in HC'. injection HC' as <-. rewrite HR. simpl.
    now rewrite P.
Qed.

Lemma oversized_and_non_json_bodies_are_not_redacted_witness :
  _parse_body_bytes Reference.ext Example.config
                    (Example.payload_bytes "password=hunter2")
  = Ok (PyStr "password=hunter2") /\
  _parse_body_bytes Reference.ext Example.config
                    (Example.payload_bytes "{'password': 'hunter2'}")
  = Ok (PyDict [("password", PyStr Reference.MASK)]).
Proof.
  split; [|vm_compute; reflexivity].
  refine (proj1 (oversized_and_non_json_bodies_are_not_redacted
                   Reference.ext Example.config
                   (Example.request_with "POST" "/login" "password=hunter2"
                                         Example.anonymous)
                   (Example.returns (Example.respond 200 "ok"))
                   Example.world0
                   (B := Example.payload_bytes "password=hunter2") _ _)
                (redact_data Reference.ext)).
  - reflexivity.
  - right. split; [discriminate|].
    split; [vm_compute; discriminate | vm_compute; reflexivity].
Defined.

(** C9 at the failing input.  The one-byte body 0xff is within the limit and
    is not JSON: [json.loads] raises [UnicodeDecodeError], which is not the
    [JSONDecodeError] that [_parse_body_bytes] catches.  The run logs a
    warning and then the request with [None] as body, where the claim has
    the text of the payload, decoded with replacement characters. *)
Theorem undecodable_body_is_logged_as_none :
  let B := [xff] in
  let request :=
    {| method := "POST"; url_path := "/login"; headers := [];
       query_params := []; body := Ok B; state := Example.anonymous |} in
  let run := dispatch Reference.ext Example.config request
                      (Example.returns (Example.respond 200 "{}"))
                      Example.world0 in
  len B <= payload_size_limit Example.config /\
  json_loads Reference.ext B = JsonRaises Reference.UnicodeDecodeError /\
  _parse_body_bytes Reference.ext Example.config B
  = Raise Reference.UnicodeDecodeError /\
  exists rec rd,
    emitted Example.world0 (snd run)
    = [warning_record
         ("Failed to capture request body: "
          ++ exn_str Reference.UnicodeDecodeError)%string;
       rec] /\
    is_info rec = true /\
    request_of rec = Some rd /\
    rd_body rd = PyNone /\
    forall text, rd_body rd <> PyStr text.
Proof.
  cbv zeta. split; [vm_compute; discriminate|].
  split; [reflexivity|]. split; [reflexivity|].
  eexists _, _. split; [vm_compute; reflexivity|].
  split; [reflexivity|]. split; [reflexivity|].
  split; [reflexivity | discriminate].
Qed.

(** ** The request record *)

(** C10. [_capture_request] always returns a record.  Its user identifier is
    the direct [user_id] of the request state whenever that attribute is set,
    whether or not a user object with an [id] is there too; it is [None] when
    the state has neither a direct [user_id] nor a user object with an [id]. *)
Theorem user_id_precedence ext config request cid w :
  exists rd w',
    _capture_request ext config request cid w = (Ok rd, w') /\
    (forall direct,
        state_user_id (state request) = Some direct ->
        rd_user_id rd = direct) /\
    (state_user_id (state request) = None ->
     (forall user, state_user (state request) = Some user ->
                   user_obj_id user = None) ->
     rd_user_id rd = PyNone).
Proof.
  destruct (capture_request_step ext config request cid w)
    as (warns & w' & E & _).
  eexists _, w'. split; [exact E|]. simpl. unfold user_id_of. split.
  - intros direct ->. reflexivity.
  - intros -> H. destruct (state_user (state request)) as [user|]; trivial.
    now rewrite (H user eq_refl).
Qed.

(** A request whose state has both shapes: the direct identifier is the one
    recorded. *)
Example direct_user_id_shadows_user_object :
  let st := {| state_user_id := Some (PyStr "user_42");
               state_user := Some {| user_obj_id := Some (PyInt 7) |} |} in
  fst (_capture_request Reference.ext Example.config
         (Example.request_with "GET" "/users/42" "" st) None Example.world0)
  = Ok (request_record Reference.ext Example.config
          (Example.request_with "GET" "/users/42" "" st) None) /\
  rd_user_id (request_record Reference.ext Example.config
                (Example.request_with "GET" "/users/42" "" st) None)
  = PyStr "user_42".
Proof. split; reflexivity. Qed.

(** ** The failure path *)

(** C4. When the handler raises [e], [dispatch] raises that same [e], after
    emitting one error record that carries the request record, the name of
    the type of [e] and its message. *)
Theorem handler_exception_is_logged_and_reraised
        ext config request call_next w e :
  call_next request = Raise e ->
  let run := dispatch ext config request call_next w in
  let rd := request_record ext config request (correlation w) in
  fst run = Raise e /\
  exists warns d,
    forallb is_plain_warning warns = true /\
    emitted w (snd run)
    = warns ++ [{| lr_level := ERROR;
                   lr_message := failed_message ext request e d;
                   lr_fields := Failed (service_name config) rd
                                       (exn_type_name e) (exn_str e) d |}].
Proof.
  intros HC. cbv zeta.
  destruct (dispatch_emitted ext config request call_next w)
    as (warns & final & E & W & O).
  unfold outcome_spec in O. rewrite HC in O. destruct O as [O1 [d O2]].
  split; [exact O1|]. exists warns, d. split; [exact W|].
  rewrite E, O2. reflexivity.
Qed.

Lemma handler_exception_is_logged_and_reraised_witness :
  fst (dispatch Reference.ext Example.config
         (Example.request_with "GET" "/error" "" Example.anonymous)
         (Example.raises (ValueError "This is a test error"))
         Example.world0)
  = Raise (ValueError "This is a test error").
Proof.
  refine (proj1 (handler_exception_is_logged_and_reraised
                   Reference.ext Example.config _ _ Example.world0 _)).
  reflexivity.
Defined.

(** ** Patterns the engine cannot compile *)

Lemma reference_engine_faithful : re_faithful Reference.ext.
Proof.
  intros pattern subject r H. simpl. unfold Reference.re_match. rewrite H.
  destruct r; simpl; eauto.
Qed.

(** With any faithful engine, checking a request against a pattern whose path
    holds an unmatched parenthesis raises. *)
Lemma unbalanced_pattern_raises ext :
  re_faithful ext ->
  exists e,
    _matches_endpoint_pattern ext "GET /health" "GET /notes/(draft" = Raise e.
Proof.
  intros F.
  destruct (F "^/notes/(draft$"%string "/health"%string RefError eq_refl)
    as [e He].
  exists e. unfold _matches_endpoint_pattern. simpl.
  change (re_sub_braces "[^/]+" "/notes/(draft") with "/notes/(draft"%string.
  simpl. now rewrite He.
Qed.

(** C3 at the failing input.  The configuration tracks the endpoint
    [GET /notes/(draft]; a [GET /health] request is handled and the handler
    returns a response, yet the run ends with an error record and no success
    record, and [dispatch] raises instead of returning the response. *)
Theorem handler_returns_but_failure_is_logged :
  let config :=
    Example.with_events [("GET /notes/(draft", Example.folder_created)] in
  let request := Example.request_with "GET" "/health" "" Example.anonymous in
  let response := Example.respond 200 "{'status': 'ok'}" in
  let run := dispatch Reference.ext config request (Example.returns response)
                      Example.world0 in
  Example.returns response request = Ok response /\
  fst run = Raise Reference.re_error /\
  count is_info (emitted Example.world0 (snd run)) = 0%nat /\
  count is_error (emitted Example.world0 (snd run)) = 1%nat.
Proof. cbv zeta. repeat split; vm_compute; reflexivity. Qed.

(** X2. Whenever classification does not raise, a handler that returns gives
    one success record and no error record; a handler that raises gives one
    error record and no success record. *)
Theorem one_record_per_request ext config request call_next w :
  let run := dispatch ext config request call_next w in
  let records := emitted w (snd run) in
  let rd := request_record ext config request (correlation w) in
  (forall response,
      call_next request = Ok response ->
      (forall rs e, _extract_business_event ext config request rd rs <> Raise e) ->
      count is_info records = 1%nat /\ count is_error records = 0%nat) /\
  (forall e,
      call_next request = Raise e ->
      count is_info records = 0%nat /\ count is_error records = 1%nat).
Proof.
  cbv zeta.
  destruct (dispatch_emitted ext config request call_next w)
    as (warns & rec & E & W & O).
  rewrite E, !count_app.
  rewrite (count_warnings is_info), (count_warnings is_error); trivial;
    try (intros r Hr; now apply plain_warning_fields in Hr).
  unfold outcome_spec in O. split.
  - intros response HC HE. rewrite HC in O. destruct O as [d O]. cbv zeta in O.
    destruct (_extract_business_event ext config request _ _) as [ev|e] eqn:EV.
    + destruct O as [_ ->]. split; reflexivity.
    + now apply HE in EV.
  - intros e HC. rewrite HC in O. destruct O as [_ [d ->]]. split; reflexivity.
Qed.

(** ** Correlation *)

Lemma dict_get_set {V} (d : dict V) k v : dict_get (dict_set d k v) k = Some v.
Proof.
  induction d as [|[k' v'] d IH]; simpl.
  - now rewrite String.eqb_refl.
  - destruct (String.eqb k k') eqn:E; simpl.
    + now rewrite String.eqb_refl.
    + now rewrite E.
Qed.

Lemma get_set_header r name value :
  get_header (response_headers (set_header r name value)) name = Some value.
Proof. unfold get_header, set_header. simpl. apply dict_get_set. Qed.

Lemma resolve_incoming token fresh :
  token <> ""%string -> resolve (Some token) fresh = token.
Proof.
  intros H. unfold resolve. destruct (String.eqb_spec token ""); congruence.
Qed.

Lemma resolve_nonempty incoming fresh :
  fresh <> ""%string -> resolve incoming fresh <> ""%string.
Proof.
  intros H. unfold resolve. destruct incoming as [v|]; trivial.
  destruct (String.eqb_spec v ""); congruence.
Qed.

(** A run of the unified middleware is a run of [dispatch] in the world where
    the token is bound. *)
Lemma call_is_dispatch ext config mw fresh request call_next w :
  ObservabilityMiddleware_init (Some config) = Ok mw ->
  let token :=
    resolve (get_header (headers request) (correlation_id_header config))
            fresh in
  exists w0,
    ObservabilityMiddleware_call ext mw fresh request call_next w
    = dispatch ext config request call_next w0 /\
    sink w0 = sink w /\ correlation w0 = Some token.
Proof.
  intros HI. injection HI as <-. cbv zeta.
  unfold ObservabilityMiddleware_call, bind, bind_correlation. simpl.
  eexists. split; [reflexivity|]. split; reflexivity.
Qed.

(** With a bound, non-empty token: the response that [dispatch] returns has
    the header, and the records carry the token. *)
Lemma dispatch_correlation ext config request call_next w token :
  correlation w = Some token -> token <> ""%string ->
  let run := dispatch ext config request call_next w in
  (forall response,
      fst run = Ok response ->
      get_header (response_headers response) (correlation_id_header config)
      = Some token) /\
  (exists rec rd, In rec (emitted w (snd run)) /\ request_of rec = Some rd) /\
  (forall rec rd,
      In rec (emitted w (snd run)) -> request_of rec = Some rd ->
      rd_correlation_id rd = Some token).
Proof.
  intros HC HT. cbv zeta.
  destruct (dispatch_emitted ext config request call_next w)
    as (warns & final & E & W & O).
  rewrite E. rewrite HC in O.
  pose proof O as OR. apply outcome_spec_record in OR as [OR _].
  split; [|split].
  - intros response HR. unfold outcome_spec in O.
    destruct (call_next request) as [r|e].
    + destruct O as [d O]. cbv zeta in O.
      destruct (_extract_business_event ext config request _ _) as [ev|e].
      * destruct O as [O _]. rewrite O in HR. injection HR as <-.
        unfold with_correlation_header, opt_truthy.
        destruct (String.eqb_spec token ""); [congruence|]. simpl.
        apply get_set_header.
      * destruct O as [O _]. congruence.
    + destruct O as [O _]. congruence.
  - exists final. eexists. split; [apply in_or_app; right; now left | exact OR].
  - intros rec rd I R. apply in_app_or in I as [I | [<- | []]].
    + apply (in_warnings _ _ W) in I.
      apply plain_warning_fields in I as (_ & _ & R1 & _). congruence.
    + rewrite OR in R. now injection R as <-.
Qed.

(** C7. A request that arrives with a non-empty token under the configured
    header: the response the middleware returns carries that token under the
    same header, a record is emitted, and every record that holds the request
    record, success or failure, has that token as its correlation id. *)
Theorem correlation_round_trip
        ext config mw fresh request call_next w token :
  ObservabilityMiddleware_init (Some config) = Ok mw ->
  get_header (headers request) (correlation_id_header config) = Some token ->
  token <> ""%string ->
  let run := ObservabilityMiddleware_call ext mw fresh request call_next w in
  (forall response,
      fst run = Ok response ->
      get_header (response_headers response) (correlation_id_header config)
      = Some token) /\
  (exists rec rd, In rec (emitted w (snd run)) /\ request_of rec = Some rd) /\
  (forall rec rd,
      In rec (emitted w (snd run)) -> request_of rec = Some rd ->
      rd_correlation_id rd = Some token).
Proof.
  intros HI HH HT. cbv zeta.
  destruct (call_is_dispatch ext fresh request call_next w HI)
    as (w0 & -> & HS & HC).
  rewrite HH, (resolve_incoming fresh HT) in HC.
  replace (emitted w) with (emitted w0)
    by (unfold emitted; now rewrite HS).
  now apply dispatch_correlation.
Qed.

Lemma correlation_round_trip_witness :
  let mw := {| om_config := Example.config;
               om_wrapped_app :=
                 {| cim_app := {| lm_config := Example.config |};
                    cim_header_name := "X-Correlation-ID" |} |} in
  let request := Example.request_with "GET" "/" "" Example.anonymous in
  let run := ObservabilityMiddleware_call Reference.ext mw "generated" request
               (Example.returns (Example.respond 200 "{}")) Example.world0 in
  exists response rec rd,
    fst run = Ok response /\
    get_header (response_headers response) "X-Correlation-ID"
    = Some "abc123"%string /\
    In rec (emitted Example.world0 (snd run)) /\
    request_of rec = Some rd /\
    rd_correlation_id rd = Some "abc123"%string.
Proof.
  cbv zeta.
  pose proof (correlation_round_trip Reference.ext (config := Example.config)
                (mw := {| om_config := Example.config;
                          om_wrapped_app :=
                            {| cim_app := {| lm_config := Example.config |};
                               cim_header_name := "X-Correlation-ID" |} |})
                "generated"
                (Example.request_with "GET" "/" "" Example.anonymous)
                (Example.returns (Example.respond 200 "{}"))
                Example.world0 (token := "abc123")) as T.
  cbv zeta in T.
  destruct T as (H1 & (rec & rd & I & R) & H3).
  - reflexivity.
  - reflexivity.
  - discriminate.
  - eexists _, rec, rd. split; [vm_compute; reflexivity|].
    split; [apply H1; vm_compute; reflexivity|].
    split; [exact I|]. split; [exact R|]. exact (H3 rec rd I R).
Defined.

(** The header is on every response the middleware returns, with or without
    an inbound token, as long as generated tokens are not empty. *)
Theorem correlation_header_always_present
        ext config mw fresh request call_next w response :
  ObservabilityMiddleware_init (Some config) = Ok mw ->
  fresh <> ""%string ->
  fst (ObservabilityMiddleware_call ext mw fresh request call_next w)
  = Ok response ->
  get_header (response_headers response) (correlation_id_header config)
  = Some (resolve (get_header (headers request) (correlation_id_header config))
                  fresh).
Proof.
  intros HI HF.
  destruct (call_is_dispatch ext fresh request call_next w HI)
    as (w0 & -> & HS & HC).
  cbv zeta in HC.
  apply (dispatch_correlation ext config request call_next w0 HC
           (resolve_nonempty _ HF)).
Qed.

(** ** Classification *)

Lemma build_event_type ext request rd rs pattern ec ev :
  build_event ext request rd rs pattern ec = Ok ev ->
  be_event_type ev = event_type ec.
Proof.
  unfold build_event.
  destruct (extract_from_path ec).
  - intros H. now injection H as <-.
  - destruct (_extract_path_params ext (url_path request) pattern);
      intros H; [now injection H as <- | discriminate].
Qed.

Lemma first_event_skips ext request rd rs endpoint earlier rest :
  (forall p c, In (p, c) earlier ->
               _matches_endpoint_pattern ext endpoint p = Ok false) ->
  first_event ext request rd rs endpoint (earlier ++ rest)
  = first_event ext request rd rs endpoint rest.
Proof.
  induction earlier as [|[p c] earlier IH]; intros H; simpl.
  - reflexivity.
  - rewrite (H p c (or_introl eq_refl)). apply IH.
    intros p' c' I. apply (H p' c'). now right.
Qed.

Lemma extract_business_event_loop ext config request rd rs :
  _extract_business_event ext config request rd rs
  = first_event ext request rd rs
                (method request ++ " " ++ url_path request)%string
                (business_events config).
Proof.
  unfold _extract_business_event. now destruct (business_events config).
Qed.

Lemma no_match_no_event ext config request rd rs :
  (forall p c, In (p, c) (business_events config) ->
               _matches_endpoint_pattern ext
                 (method request ++ " " ++ url_path request)%string p
               = Ok false) ->
  _extract_business_event ext config request rd rs = Ok None.
Proof.
  intros H. rewrite extract_business_event_loop.
  rewrite <- (app_nil_r (business_events config)).
  now rewrite (first_event_skips _ _ _ _ _ _ _ H).
Qed.

(** X22. As long as no check raises, classification walks the configured
    mapping in insertion order: when the checks of the earlier patterns
    answer [False] and the check of a pattern answers [True], the event is
    built from that pattern, whatever comes after it (or classification
    raises what extracting its path parameters raises), so of two patterns
    that match the earlier one wins; it is nothing when every check answers
    [False], and when the mapping is empty. *)
Theorem business_event_is_first_match ext config request rd rs :
  let endpoint := (method request ++ " " ++ url_path request)%string in
  let result := _extract_business_event ext config request rd rs in
  (forall earlier pattern ec later,
      business_events config = earlier ++ (pattern, ec) :: later ->
      (forall p c, In (p, c) earlier ->
                   _matches_endpoint_pattern ext endpoint p = Ok false) ->
      _matches_endpoint_pattern ext endpoint pattern = Ok true ->
      result = match build_event ext request rd rs pattern ec with
               | Ok ev => Ok (Some ev)
               | Raise e => Raise e
               end /\
      forall ev, result = Ok (Some ev) -> be_event_type ev = event_type ec) /\
  ((forall p c, In (p, c) (business_events config) ->
                _matches_endpoint_pattern ext endpoint p = Ok false) ->
   result = Ok None) /\
  (business_events config = [] -> result = Ok None).
Proof.
  cbv zeta. rewrite extract_business_event_loop. split; [|split].
  - intros earlier pattern ec later -> HE HM.
    rewrite (first_event_skips _ _ _ _ _ _ _ HE). cbn [first_event]. rewrite HM.
    split; [reflexivity|].
    destruct (build_event ext request rd rs pattern ec) as [ev'|e] eqn:B;
      intros ev H; [|discriminate].
    injection H as <-. now apply build_event_type in B.
  - intros H. rewrite <- extract_business_event_loop.
    now apply no_match_no_event.
  - intros ->. reflexivity.
Qed.

Lemma business_event_is_first_match_witness :
  let request := Example.request_with "GET" "/items/special" ""
                                      Example.anonymous in
  let rd := request_record Reference.ext Example.overlapping request None in
  let rs := response_record Reference.ext Example.overlapping
                            (Example.respond 200 "") (inject_Z 1) in
  _matches_endpoint_pattern Reference.ext "GET /items/special"
                            "GET /items/special" = Ok true /\
  _extract_business_event Reference.ext Example.overlapping request rd rs
  = Ok (Some {| be_event_type := "item.read";
                be_business_context := [("item_id", PyStr "special")] |}).
Proof.
  cbv zeta. split; [vm_compute; reflexivity|].
  refine (eq_trans
    (proj1 (proj1 (business_event_is_first_match Reference.ext
                     Example.overlapping _ _ _)
       [("POST /items", Example.folder_created)] "GET /items/{item_id}"
       Example.item_read [("GET /items/special", Example.item_special)]
       eq_refl _ _)) _).
  - intros p c [H | []]. injection H as <- <-. vm_compute. reflexivity.
  - vm_compute. reflexivity.
  - vm_compute. reflexivity.
Defined.

(** C6 at the failing input.  Two endpoints are tracked, [GET /notes/(draft]
    and then [GET /health].  A [GET /health] request matches the second
    pattern and no other, yet classification raises, on the check of the
    first pattern, instead of returning the event of the second; with the
    two entries the other way round it returns that event, and with the
    first pattern alone, which the request does not match, it raises instead
    of returning nothing. *)
Theorem earlier_pattern_raises_before_the_match :
  let draft := ("GET /notes/(draft", Example.folder_created) in
  let health := ("GET /health", Example.item_special) in
  let request := Example.request_with "GET" "/health" "" Example.anonymous in
  let rd := request_record Reference.ext Example.config request None in
  let rs := response_record Reference.ext Example.config
                            (Example.respond 200 "") (inject_Z 1) in
  let classify events :=
    _extract_business_event Reference.ext (Example.with_events events)
                            request rd rs in
  _matches_endpoint_pattern Reference.ext "GET /health" "GET /health"
  = Ok true /\
  _matches_endpoint_pattern Reference.ext "GET /health" "GET /notes/(draft"
  = Raise Reference.re_error /\
  classify [draft; health] = Raise Reference.re_error /\
  classify [health; draft]
  = Ok (Some {| be_event_type := "item.special";
                be_business_context := [] |}) /\
  classify [draft] = Raise Reference.re_error.
Proof. cbv zeta. repeat split; vm_compute; reflexivity. Qed.

(** ** Endpoint patterns *)

(** A placeholder takes at least one character and no slash. *)
Lemma match_seg_sound {X} (k : list ascii -> option X) s g x :
  match_seg k s = Some (g, x) ->
  g <> [] /\ ~ In slash g /\ exists s', s = g ++ s' /\ k s' = Some x.
Proof.
  revert g x. induction s as [|c s IH]; intros g x; simpl; [discriminate|].
  destruct (Ascii.eqb_spec c slash) as [->|Hc]; [discriminate|].
  destruct (match_seg k s) as [[g' x']|] eqn:E.
  - intros H. injection H as <- <-.
    destruct (IH g' x' eq_refl) as (_ & Hn & s' & -> & Hk).
    split; [discriminate|]. split.
    + intros [H | H]; [now apply Hc | now apply Hn].
    + now exists s'.
  - destruct (k s) as [x'|] eqn:Ek; [|discriminate].
    intros H. injection H as <- <-.
    split; [discriminate|]. split.
    + intros [H | []]. now apply Hc.
    + now exists s.
Qed.

(** The method of the request and the method of the pattern are compared as
    they stand: a match needs both texts to hold a space and the same text
    before it. *)
Lemma matches_requires_equal_methods ext endpoint pattern :
  _matches_endpoint_pattern ext endpoint pattern = Ok true ->
  exists m endpoint_path pattern_path,
    split_first_space endpoint = Some (m, endpoint_path) /\
    split_first_space pattern = Some (m, pattern_path).
Proof.
  unfold _matches_endpoint_pattern.
  destruct (split_first_space endpoint) as [[em ep]|]; [|discriminate].
  destruct (split_first_space pattern) as [[pm pp]|]; [|discriminate].
  destruct (String.eqb_spec em pm) as [->|]; [|discriminate].
  intros _. now exists pm, ep, pp.
Qed.

(** With any faithful engine, a dot of the path template stands for any
    character. *)
Lemma dot_matches_any_character ext :
  re_faithful ext ->
  _matches_endpoint_pattern ext "GET /files/report-pdf" "GET /files/report.pdf"
  = Ok true.
Proof.
  intros F.
  pose proof (F "^/files/report.pdf$"%string "/files/report-pdf"%string
                (RefMatch []) eq_refl) as H.
  simpl in H. unfold _matches_endpoint_pattern. simpl.
  change (re_sub_braces "[^/]+" "/files/report.pdf")
    with "/files/report.pdf"%string.
  simpl. now rewrite H.
Qed.

(** C5 on the endpoints of the specification, and at the failing input.  The
    placeholder matches one segment, the method is compared exactly; but the
    rest of the template is handed to the engine as it stands, so the dot of
    [report.pdf] matches any character and the template accepts the path
    [/files/report-pdf]. *)
Theorem template_is_read_as_a_regular_expression :
  let matches := _matches_endpoint_pattern Reference.ext in
  matches "DELETE /folders/42" "DELETE /folders/{folder_id}" = Ok true /\
  matches "GET /folders/42" "DELETE /folders/{folder_id}" = Ok false /\
  matches "DELETE /folders/42/items" "DELETE /folders/{folder_id}" = Ok false /\
  matches "delete /folders/42" "DELETE /folders/{folder_id}" = Ok false /\
  _extract_path_params Reference.ext "/folders/42" "DELETE /folders/{folder_id}"
    = Ok [("folder_id", "42")] /\
  matches "GET /files/report.pdf" "GET /files/report.pdf" = Ok true /\
  matches "GET /files/report-pdf" "GET /files/report.pdf" = Ok true.
Proof. cbv zeta. repeat split; vm_compute; reflexivity. Qed.

(** ** Construction *)

Lemma pattern_without_space_matches_nothing ext endpoint pattern :
  split_first_space pattern = None ->
  _matches_endpoint_pattern ext endpoint pattern = Ok false.
Proof.
  intros H. unfold _matches_endpoint_pattern.
  rewrite H. now destruct (split_first_space endpoint) as [[? ?]|].
Qed.

(** C8, as amended.  A missing [service_name] is fatal at construction: the
    configuration cannot be built, so no middleware is built either and no
    request is ever handed to one; nor is a middleware built without a
    configuration.  An endpoint pattern that is not of the form
    [METHOD /path] is not an error at construction: whatever patterns a
    configuration holds, the middleware is built around it; at request time
    such a pattern matches no request and raises nothing, so a mapping made
    of such patterns classifies every request as no event. *)
Theorem missing_name_is_fatal_malformed_pattern_is_not :
  (forall others,
      ObservabilityConfig_init None others = Raise service_name_required /\
      build_middleware None others = Raise service_name_required /\
      RequestResponseLoggingMiddleware_init
        None (ObservabilityConfig_init None others)
      = Raise service_name_required) /\
  ObservabilityMiddleware_init None
  = Raise (ValueError "ObservabilityConfig is required") /\
  (forall config,
      exists mw,
        ObservabilityMiddleware_init (Some config) = Ok mw /\
        om_config mw = config /\
        lm_config (cim_app (om_wrapped_app mw)) = config) /\
  (forall ext endpoint pattern,
      split_first_space pattern = None ->
      _matches_endpoint_pattern ext endpoint pattern = Ok false) /\
  (forall ext config request rd rs,
      (forall p c, In (p, c) (business_events config) ->
                   split_first_space p = None) ->
      _extract_business_event ext config request rd rs = Ok None).
Proof.
  split; [|split; [|split; [|split]]].
  - intros others. repeat split.
  - reflexivity.
  - intros config. eexists. repeat split.
  - exact pattern_without_space_matches_nothing.
  - intros ext config request rd rs H.
    apply no_match_no_event.
    intros p c I. apply pattern_without_space_matches_nothing.
    now apply (H p c).
Qed.

(** C8, as stated, fails: the pattern [/folders], which has no method, is
    accepted when the middleware is built; it comes up at request time only,
    where a [POST /folders] request is logged without any event. *)
Lemma malformed_pattern_is_accepted :
  let config := Example.with_events [("/folders", Example.folder_created)] in
  let request :=
    Example.request_with "POST" "/folders" "{'name': 'Docs'}"
                         Example.anonymous in
  let handler := Example.returns (Example.respond 201 "{}") in
  split_first_space "/folders" = None /\
  exists mw,
    ObservabilityMiddleware_init (Some config) = Ok mw /\
    let run := ObservabilityMiddleware_call Reference.ext mw "generated"
                 request handler Example.world0 in
    (exists response, fst run = Ok response) /\
    exists rec,
      emitted Example.world0 (snd run) = [rec] /\
      is_info rec = true /\ event_of rec = None.
Proof.
  cbv zeta. split; [reflexivity|].
  eexists. split; [reflexivity|]. split.
  - eexists. vm_compute. reflexivity.
  - eexists. split; [vm_compute; reflexivity|]. split; reflexivity.
Qed.

(** ** The full trace of a run *)

Lemma run_to_trans w1 w2 w3 l1 l2 n1 n2 c1 c2 :
  run_to w1 w2 l1 n1 c1 -> run_to w2 w3 l2 n2 c2 ->
  run_to w1 w3 (l1 ++ l2) (n1 + n2) c2.
Proof.
  intros (S1 & C1 & K1 & X1) (S2 & C2 & K2 & X2). split; [|split; [|split]].
  - rewrite S2, S1. now rewrite app_assoc.
  - congruence.
  - rewrite K2, K1, skipn_skipn. f_equal. lia.
  - exact X2.
Qed.

Lemma time_time_reads w :
  exists w', time_time w = (Ok (reading w 0), w') /\
             run_to w w' [] 1 (context w).
Proof.
  unfold time_time, reading, run_to. destruct (clock w) as [|t ts] eqn:E.
  - exists w. rewrite E, app_nil_r. repeat split.
  - eexists. split; [reflexivity|]. simpl. rewrite app_nil_r. repeat split.
Qed.

Lemma reading_after w w' l n c k :
  run_to w w' l n c -> reading w' k = reading w (n + k).
Proof.
  intros (_ & _ & K & _). unfold reading. rewrite K.
  now rewrite nth_skipn.
Qed.

Lemma bind_contextvars_binds k v w :
  exists w', bind_contextvars k v w = (Ok tt, w') /\
             run_to w w' [] 0 (dict_set (context w) k v).
Proof.
  eexists. split; [reflexivity|]. unfold run_to. simpl.
  rewrite app_nil_r. repeat split.
Qed.

Lemma emit_appends l m f w :
  exists w', emit l m f w = (Ok tt, w') /\
             run_to w w' [{| lr_level := l; lr_message := m; lr_fields := f |}]
                    0 (context w).
Proof. eexists. split; [reflexivity|]. repeat split. Qed.

Lemma capture_request_body_traced ext config request w :
  exists w',
    _capture_request_body ext config request w
    = (Ok (captured ext config (body request)), w') /\
    run_to w w' (request_body_warnings ext config request) 0 (context w) /\
    (forall e, capture_failure ext config (body request) = Some e ->
               captured ext config (body request) = PyNone).
Proof.
  unfold _capture_request_body, try_except, bind, lift, captured,
    request_body_warnings, capture_failure.
  destruct (body request) as [b|e].
  - destruct (_parse_body_bytes ext config b) as [v|e].
    + exists w. split; [reflexivity|]. split; [|discriminate].
      unfold run_to. rewrite app_nil_r. repeat split.
    + eexists. split; [reflexivity|]. split; [repeat split | reflexivity].
  - eexists. split; [reflexivity|]. split; [repeat split | reflexivity].
Qed.

(** X3. Capturing the request body never raises.  When reading the body
    raises, or when [json.loads] raises something that is not a
    [JSONDecodeError], the body is [None] and one warning is logged with the
    text of the exception; otherwise nothing is logged. *)
Theorem capture_request_body_never_raises ext config request w :
  exists w',
    _capture_request_body ext config request w
    = (Ok (captured ext config (body request)), w') /\
    run_to w w' (request_body_warnings ext config request) 0 (context w) /\
    (forall e, capture_failure ext config (body request) = Some e ->
               captured ext config (body request) = PyNone).
Proof.
  unfold _capture_request_body, try_except, bind, lift, captured,
    request_body_warnings, capture_failure.
  destruct (body request) as [b|e].
  - destruct (_parse_body_bytes ext config b) as [v|e].
    + exists w. split; [reflexivity|]. split; [|discriminate].
      unfold run_to. rewrite app_nil_r. repeat split.
    + eexists. split; [reflexivity|]. split; [repeat split | reflexivity].
  - eexists. split; [reflexivity|]. split; [repeat split | reflexivity].
Qed.

Lemma capture_response_body_traced ext config response w :
  exists w',
    _capture_response_body ext config response w
    = (Ok (captured_response ext config (response_body response)), w') /\
    run_to w w' (response_body_warnings ext config response) 0 (context w) /\
    (response_body response = Streaming ->
     captured_response ext config (response_body response) = streaming_marker /\
     response_body_warnings ext config response = []) /\
    (response_body response = NoBody ->
     captured_response ext config (response_body response) = PyNone /\
     response_body_warnings ext config response = []) /\
    (forall b e,
        response_body response = Body b ->
        _parse_body_bytes ext config b = Raise e ->
        captured_response ext config (response_body response) = PyNone /\
        response_body_warnings ext config response
        = [warning_record ("Failed to capture response body: " ++ exn_str e)]).
Proof.
  unfold _capture_response_body, try_except, lift, ret, captured_response,
    captured, response_body_warnings, capture_failure.
  destruct (response_body response) as [|b|].
  - exists w. split; [reflexivity|]. split.
    + unfold run_to. rewrite app_nil_r. repeat split.
    + repeat split; intros; discriminate.
  - destruct (_parse_body_bytes ext config b) as [v|e] eqn:P.
    + exists w. split; [reflexivity|]. split.
      * unfold run_to. rewrite app_nil_r. repeat split.
      * split; [discriminate|]. split; [discriminate|].
        intros b' e' Hb He. injection Hb as <-. congruence.
    + eexists. split; [reflexivity|]. split; [repeat split|].
      split; [discriminate|]. split; [discriminate|].
      intros b' e' Hb He. injection Hb as <-. rewrite P in He.
      injection He as <-. split; reflexivity.
  - exists w. split; [reflexivity|]. split.
    + unfold run_to. rewrite app_nil_r. repeat split.
    + repeat split; intros; discriminate.
Qed.

(** X4. Capturing the response body never raises.  A streaming response is
    logged as the streaming marker and a response without body as [None],
    without any warning; a body whose parsing raises is logged as [None]
    after one warning with the text of the exception. *)
Theorem capture_response_body_never_raises ext config response w :
  exists w',
    _capture_response_body ext config response w
    = (Ok (captured_response ext config (response_body response)), w') /\
    run_to w w' (response_body_warnings ext config response) 0 (context w) /\
    (response_body response = Streaming ->
     captured_response ext config (response_body response) = streaming_marker /\
     response_body_warnings ext config response = []) /\
    (response_body response = NoBody ->
     captured_response ext config (response_body response) = PyNone /\
     response_body_warnings ext config response = []) /\
    (forall b e,
        response_body response = Body b ->
        _parse_body_bytes ext config b = Raise e ->
        captured_response ext config (response_body response) = PyNone /\
        response_body_warnings ext config response
        = [warning_record ("Failed to capture response body: " ++ exn_str e)]).
Proof.
  unfold _capture_response_body, try_except, lift, ret, captured_response,
    captured, response_body_warnings, capture_failure.
  destruct (response_body response) as [|b|].
  - exists w. split; [reflexivity|]. split.
    + unfold run_to. rewrite app_nil_r. repeat split.
    + repeat split; intros; discriminate.
  - destruct (_parse_body_bytes ext config b) as [v|e] eqn:P.
    + exists w. split; [reflexivity|]. split.
      * unfold run_to. rewrite app_nil_r. repeat split.
      * split; [discriminate|]. split; [discriminate|].
        intros b' e' Hb He. injection Hb as <-. congruence.
    + eexists. split; [reflexivity|]. split; [repeat split|].
      split; [discriminate|]. split; [discriminate|].
      intros b' e' Hb He. injection Hb as <-. rewrite P in He.
      injection He as <-. split; reflexivity.
  - exists w. split; [reflexivity|]. split.
    + unfold run_to. rewrite app_nil_r. repeat split.
    + repeat split; intros; discriminate.
Qed.

Lemma capture_request_traced ext config request cid w :
  exists w',
    _capture_request ext config request cid w
    = (Ok (request_record ext config request cid), w') /\
    run_to w w' (request_body_warnings ext config request) 0 (context w).
Proof.
  destruct (capture_request_body_traced ext config request w)
    as (w' & E & R & _).
  exists w'. split; [|exact R].
  unfold _capture_request, bind. rewrite E. reflexivity.
Qed.

Lemma capture_response_traced ext config response d w :
  exists w',
    _capture_response ext config response d w
    = (Ok (response_record ext config response d), w') /\
    run_to w w' (response_body_warnings ext config response) 0 (context w).
Proof.
  destruct (capture_response_body_traced ext config response w)
    as (w' & E & R & _).
  exists w'. split; [|exact R].
  unfold _capture_response, bind. rewrite E. reflexivity.
Qed.

(** A run of [dispatch] is its trace: the outcome, the records appended to
    the sink in that order, the number of clock readings, and the logging
    context it leaves. *)
Lemma dispatch_trace ext config request call_next w :
  exists w',
    dispatch ext config request call_next w
    = (fst (fst (trace ext config request call_next w)), w') /\
    run_to w w' (snd (fst (trace ext config request call_next w)))
           (snd (trace ext config request call_next w))
           (bound_context w request).
Proof.
  unfold dispatch, trace.
  unfold bind at 1. change (get_correlation_id w) with (Ok (correlation w), w).
  cbv beta iota.
  set (cid := correlation w).
  destruct (bind_contextvars_binds "correlation_id" (opt_str cid) w)
    as (w1 & E1 & S1).
  unfold bind at 1. rewrite E1.
  destruct (time_time_reads w1) as (w2 & E2 & S2).
  unfold bind at 1. rewrite E2.
  destruct (capture_request_traced ext config request cid w2)
    as (w3 & E3 & S3).
  unfold bind at 1. rewrite E3.
  set (rd := request_record ext config request cid).
  assert (exists w4, (if truthy (rd_user_id rd)
                      then bind_contextvars "user_id" (rd_user_id rd)
                      else ret tt) w3 = (Ok tt, w4) /\
                     run_to w3 w4 [] 0 (bound_context w request))
    as (w4 & E4 & S4).
  { assert (C3 : context w3 = dict_set (context w) "correlation_id" (opt_str cid)).
    { destruct S1 as (_ & _ & _ & X1), S2 as (_ & _ & _ & X2),
        S3 as (_ & _ & _ & X3). congruence. }
    unfold bound_context. fold cid. change (rd_user_id rd) with (user_id_of (state request)).
    destruct (truthy (user_id_of (state request))).
    - destruct (bind_contextvars_binds "user_id" (user_id_of (state request)) w3)
        as (w4 & E4 & S4).
      exists w4. split; [exact E4|]. now rewrite <- C3.
    - exists w3. split; [reflexivity|]. unfold run_to.
      rewrite app_nil_r. repeat split. exact C3. }
  unfold bind at 1. rewrite E4.
  assert (S04 : run_to w w4 (request_body_warnings ext config request) 1
                       (bound_context w request)).
  { pose proof (run_to_trans S1 (run_to_trans S2 (run_to_trans S3 S4))) as H.
    simpl in H. now rewrite app_nil_r in H. }
  assert (R0 : reading w1 0 = reading w 0).
  { now rewrite (reading_after 0 S1). }
  rewrite R0.
  assert (C4 : context w4 = bound_context w request) by apply S04.
  clear E1 E2 E3 E4 S1 S2 S3 S4 R0.
  unfold try_except, bind at 1, lift.
  destruct (call_next request) as [response|e].
  - destruct (time_time_reads w4) as (w5 & E5 & S5).
    unfold bind at 1. rewrite E5.
    rewrite (reading_after 0 S04). simpl (1 + 0)%nat.
    set (d := elapsed_ms (reading w 0) (reading w 1)).
    destruct (capture_response_traced ext config response d w5)
      as (w6 & E6 & S6).
    unfold bind at 1. rewrite E6.
    fold (with_correlation_header config cid response).
    set (rs := response_record ext config response d).
    assert (S06 : run_to w w6 (request_body_warnings ext config request
                                 ++ response_body_warnings ext config response)
                         2 (bound_context w request)).
    { pose proof (run_to_trans S04 (run_to_trans S5 S6)) as H.
      simpl in H. destruct S5 as (_ & _ & _ & X5), S6 as (_ & _ & _ & X6).
      destruct H as (H1 & H2 & H3 & H4). repeat split; trivial. congruence. }
    assert (C6 : context w6 = bound_context w request) by apply S06.
    unfold bind at 1.
    destruct (_extract_business_event ext config request rd rs) as [ev|e] eqn:EV.
    + unfold bind, ret, logger_info.
      destruct (emit_appends INFO
                  (completed_message ext request
                     (with_correlation_header config cid response) d)
                  (Completed (service_name config) rd rs d ev) w6)
        as (w7 & E7 & S7).
      rewrite E7. exists w7. split; [reflexivity|]. simpl.
      pose proof (run_to_trans S06 S7) as H. rewrite C6 in H.
      rewrite <- app_assoc in H. exact H.
    + destruct (time_time_reads w6) as (w7 & E7 & S7).
      unfold bind at 1. rewrite E7.
      rewrite (reading_after 0 S06). simpl (2 + 0)%nat.
      unfold bind, raise, logger_error.
      destruct (emit_appends ERROR
                  (failed_message ext request e
                     (elapsed_ms (reading w 0) (reading w 2)))
                  (Failed (service_name config) rd (exn_type_name e)
                          (exn_str e) (elapsed_ms (reading w 0) (reading w 2)))
                  w7)
        as (w8 & E8 & S8).
      rewrite E8. exists w8. split; [reflexivity|]. simpl.
      pose proof (run_to_trans S06 (run_to_trans S7 S8)) as H.
      destruct S7 as (_ & _ & _ & X7). rewrite X7, C6 in H.
      simpl in H. rewrite <- app_assoc in H. exact H.
  - destruct (time_time_reads w4) as (w7 & E7 & S7).
    unfold bind at 1. rewrite E7.
    rewrite (reading_after 0 S04). simpl (1 + 0)%nat.
    unfold bind, raise, logger_error.
    destruct (emit_appends ERROR
                (failed_message ext request e
                   (elapsed_ms (reading w 0) (reading w 1)))
                (Failed (service_name config) rd (exn_type_name e)
                        (exn_str e) (elapsed_ms (reading w 0) (reading w 1)))
                w7)
      as (w8 & E8 & S8).
    rewrite E8. exists w8. split; [reflexivity|]. simpl.
    pose proof (run_to_trans S04 (run_to_trans S7 S8)) as H.
    destruct S7 as (_ & _ & _ & X7). rewrite X7, C4 in H.
    simpl in H. exact H.
Qed.

Lemma dispatch_traced ext config request call_next w :
  let run := dispatch ext config request call_next w in
  let t := trace ext config request call_next w in
  fst run = fst (fst t) /\
  emitted w (snd run) = snd (fst t) /\
  sink (snd run) = sink w ++ snd (fst t) /\
  context (snd run) = bound_context w request /\
  clock (snd run) = skipn (snd t) (clock w) /\
  correlation (snd run) = correlation w.
Proof.
  cbv zeta.
  destruct (dispatch_trace ext config request call_next w) as (w' & E & R).
  rewrite E. simpl. destruct R as (S & C & K & X).
  repeat split; trivial.
  unfold emitted. rewrite S, skipn_app, skipn_all, Nat.sub_diag. reflexivity.
Qed.

Lemma dict_get_set_other {V} (d : dict V) k k' v :
  k' <> k -> dict_get (dict_set d k v) k' = dict_get d k'.
Proof.
  intros H. induction d as [|[k0 v0] d IH]; simpl.
  - destruct (String.eqb_spec k' k); congruence.
  - destruct (String.eqb_spec k k0) as [->|N]; simpl.
    + destruct (String.eqb_spec k' k0); congruence.
    + destruct (String.eqb_spec k' k0); [reflexivity | exact IH].
Qed.

(** X5. When [dispatch] returns a response, it is the response of the handler
    with at most the correlation header set: same status code, same body, and
    every header with another name as the handler left it. *)
Theorem returned_response_is_the_handlers ext config request call_next w r :
  fst (dispatch ext config request call_next w) = Ok r ->
  exists response,
    call_next request = Ok response /\
    status_code r = status_code response /\
    response_body r = response_body response /\
    forall name,
      lower name <> lower (correlation_id_header config) ->
      get_header (response_headers r) name
      = get_header (response_headers response) name.
Proof.
  intros H.
  destruct (dispatch_traced ext config request call_next w) as (E & _).
  rewrite E in H. unfold trace in H.
  destruct (call_next request) as [response|e]; [|discriminate H].
  exists response. split; [reflexivity|].
  destruct (_extract_business_event ext config request _ _); [|discriminate H].
  simpl in H. injection H as <-.
  unfold with_correlation_header.
  destruct (correlation w) as [cid|]; [|repeat split].
  destruct (opt_truthy (Some cid)); [|repeat split].
  split; [reflexivity|]. split; [reflexivity|].
  intros name N. unfold get_header, set_header. simpl.
  now apply dict_get_set_other.
Qed.

Lemma returned_response_is_the_handlers_witness :
  exists response,
    Example.returns (Example.respond 201 "{'id': 7}")
      (Example.request_with "POST" "/folders" "{'name': 'Docs'}"
                            Example.anonymous)
    = Ok response /\
    status_code response = 201.
Proof.
  destruct (returned_response_is_the_handlers
              Reference.ext Example.config
              (Example.request_with "POST" "/folders" "{'name': 'Docs'}"
                                    Example.anonymous)
              (Example.returns (Example.respond 201 "{'id': 7}"))
              Example.world0
              (r := Example.respond 201 "{'id': 7}"))
    as (response & H1 & H2 & _).
  - vm_compute. reflexivity.
  - exists response. split; [exact H1|]. rewrite <- H2. reflexivity.
Defined.

(** X6. Without a correlation id, or with an empty one, [dispatch] returns the
    response of the handler untouched, and the records carry that absent or
    empty id. *)
Theorem no_correlation_id_no_header ext config request call_next w :
  opt_truthy (correlation w) = false ->
  let run := dispatch ext config request call_next w in
  (forall r, fst run = Ok r -> call_next request = Ok r) /\
  (forall rec rd,
      In rec (emitted w (snd run)) -> request_of rec = Some rd ->
      rd_correlation_id rd = correlation w).
Proof.
  intros HC. cbv zeta.
  destruct (dispatch_traced ext config request call_next w) as (E & _).
  split.
  - intros r H. rewrite E in H. unfold trace in H.
    destruct (call_next request) as [response|e]; [|discriminate H].
    destruct (_extract_business_event ext config request _ _); [|discriminate H].
    simpl in H. injection H as <-. unfold with_correlation_header.
    destruct (correlation w); [now rewrite HC | reflexivity].
  - destruct (dispatch_emitted ext config request call_next w)
      as (warns & final & EM & W & O).
    rewrite EM. intros rec rd I R.
    apply in_app_or in I as [I | [<- | []]].
    + apply (in_warnings _ _ W) in I.
      apply plain_warning_fields in I as (_ & _ & R1 & _). congruence.
    + apply outcome_spec_record in O as [O _]. rewrite O in R.
      now injection R as <-.
Qed.

Lemma no_correlation_id_no_header_witness :
  opt_truthy (correlation Example.world0) = false /\
  forall r,
    fst (dispatch Reference.ext Example.config
           (Example.request_with "GET" "/" "" Example.anonymous)
           (Example.returns (Example.respond 200 "{}")) Example.world0)
    = Ok r ->
    Example.returns (Example.respond 200 "{}")
      (Example.request_with "GET" "/" "" Example.anonymous)
    = Ok r.
Proof.
  split; [reflexivity|].
  apply (proj1 (no_correlation_id_no_header Reference.ext Example.config
                  (Example.request_with "GET" "/" "" Example.anonymous)
                  (Example.returns (Example.respond 200 "{}"))
                  Example.world0 eq_refl)).
Defined.

Lemma emitted_request_records ext config request call_next w rec rd :
  In rec (emitted w (snd (dispatch ext config request call_next w))) ->
  request_of rec = Some rd ->
  rd = request_record ext config request (correlation w).
Proof.
  destruct (dispatch_emitted ext config request call_next w)
    as (warns & final & EM & W & O).
  rewrite EM. intros I R.
  apply in_app_or in I as [I | [<- | []]].
  - apply (in_warnings _ _ W) in I.
    apply plain_warning_fields in I as (_ & _ & R1 & _). congruence.
  - apply outcome_spec_record in O as [O _]. rewrite O in R.
    now injection R as <-.
Qed.

(** X7. Query parameters are logged as they came: when [log_query_params] is
    on, every record that holds the request record has the query parameters
    of the request, whatever the redaction functions are; when it is off, it
    has none.  The headers are logged through [redact_headers] when
    [log_request_headers] is on and not at all when it is off. *)
Theorem query_parameters_are_logged_verbatim
        ext config request call_next w rec rd :
  In rec (emitted w (snd (dispatch ext config request call_next w))) ->
  request_of rec = Some rd ->
  rd_query_params rd
  = (if log_query_params config then Some (query_params request) else None) /\
  rd_headers rd
  = (if log_request_headers config
     then Some (redact_headers ext (headers request)) else None) /\
  rd_method rd = method request /\ rd_path rd = url_path request.
Proof.
  intros I R.
  rewrite (emitted_request_records ext config request call_next w rec I R).
  repeat split.
Qed.

Lemma query_parameters_are_logged_verbatim_witness :
  let request :=
    {| method := "GET"; url_path := "/search";
       headers := [("authorization", "Bearer abc")];
       query_params := [("token", "s3cr3t")];
       body := Ok []; state := Example.anonymous |} in
  let run := dispatch Reference.ext Example.config request
                      (Example.returns (Example.respond 200 "{}"))
                      Example.world0 in
  exists rec rd,
    In rec (emitted Example.world0 (snd run)) /\
    request_of rec = Some rd /\
    rd_query_params rd = Some [("token", "s3cr3t")] /\
    rd_headers rd = Some [("authorization", Reference.MASK)].
Proof.
  cbv zeta.
  eexists _, _.
  match goal with
  | |- In ?rec ?l /\ request_of _ = Some ?rd /\ _ =>
      assert (I : In rec l) by (vm_compute; left; reflexivity);
      assert (R : request_of rec = Some rd) by (vm_compute; reflexivity)
  end.
  split; [exact I|]. split; [exact R|].
  destruct (query_parameters_are_logged_verbatim
              Reference.ext Example.config _ _ Example.world0 _ I R)
    as (Q & H & _).
  split; [exact Q | exact H].
Defined.

Lemma emitted_response_records ext config request call_next w rec rs :
  In rec (emitted w (snd (dispatch ext config request call_next w))) ->
  response_of rec = Some rs ->
  exists response,
    call_next request = Ok response /\
    rs = response_record ext config response
           (elapsed_ms (reading w 0) (reading w 1)) /\
    duration_of rec = Some (elapsed_ms (reading w 0) (reading w 1)) /\
    fst (dispatch ext config request call_next w)
    = Ok (with_correlation_header config (correlation w) response).
Proof.
  destruct (dispatch_traced ext config request call_next w)
    as (E & EM & _).
  rewrite E, EM. unfold trace, request_body_warnings, response_body_warnings.
  destruct (call_next request) as [response|e].
  - intros I R. exists response. split; [reflexivity|].
    destruct (_extract_business_event ext config request _ _) as [ev|e];
      simpl in I |- *;
      repeat (apply in_app_or in I as [I | I]);
      repeat match type of I with
             | In _ (match ?x with _ => _ end) => destruct x
             end;
      simpl in I;
      repeat match type of I with
             | _ \/ _ => destruct I as [I | I]
             | False => destruct I
             end;
      subst rec; try discriminate R;
      simpl in R; injection R as <-; repeat split.
  - intros I R. simpl in I.
    apply in_app_or in I as [I | I];
      repeat match type of I with
             | In _ (match ?x with _ => _ end) => destruct x
             end;
      simpl in I;
      repeat match type of I with
             | _ \/ _ => destruct I as [I | I]
             | False => destruct I
             end;
      subst rec; discriminate R.
Qed.

(** X8. The response record is taken from the response of the handler before
    the correlation header is set on it: its headers are the redacted headers
    of the handler's response (or absent when [log_response_headers] is off),
    its status code is the handler's, and its duration is the one of the log
    record. *)
Theorem response_record_precedes_header_injection
        ext config request call_next w rec rs :
  In rec (emitted w (snd (dispatch ext config request call_next w))) ->
  response_of rec = Some rs ->
  exists response,
    call_next request = Ok response /\
    rs_status_code rs = status_code response /\
    rs_headers rs
    = (if log_response_headers config
       then Some (redact_headers ext (response_headers response)) else None) /\
    duration_of rec = Some (rs_duration_ms rs).
Proof.
  intros I R.
  destruct (emitted_response_records ext config request call_next w rec I R)
    as (response & HC & -> & D & _).
  exists response. repeat split; trivial.
Qed.

Lemma response_record_precedes_header_injection_witness :
  let config :=
    {| service_name := "example-api";
       correlation_id_header := "X-Correlation-ID";
       log_request_headers := false; log_response_headers := true;
       log_query_params := false; payload_size_limit := 10240;
       additional_redaction_patterns := []; business_events := [] |} in
  let request := Example.request_with "GET" "/" "" Example.anonymous in
  let w := {| sink := []; context := []; correlation := Some "abc123"%string;
              clock := Example.clock0 |} in
  let run := dispatch Reference.ext config request
                      (Example.returns (Example.respond 200 "{}")) w in
  exists rec rs response,
    In rec (emitted w (snd run)) /\ response_of rec = Some rs /\
    fst run = Ok response /\
    get_header (response_headers response) "X-Correlation-ID"
    = Some "abc123"%string /\
    rs_headers rs = Some [("content-type", "application/json")].
Proof.
  cbv zeta. eexists _, _, _.
  match goal with
  | |- In ?rec ?l /\ response_of _ = Some ?rs /\ _ =>
      assert (I : In rec l) by (vm_compute; left; reflexivity);
      assert (R : response_of rec = Some rs) by (vm_compute; reflexivity)
  end.
  split; [exact I|]. split; [exact R|].
  split; [vm_compute; reflexivity|]. split; [vm_compute; reflexivity|].
  destruct (response_record_precedes_header_injection _ _ _ _ _ _ I R)
    as (response & HC & _ & H & _).
  injection HC as <-. exact H.
Defined.

(** X9. The duration of a run is read off the clock: the first reading is
    taken before the request is captured and the second right after the
    handler returns or raises, so the success record, its response record and
    the error record of a raising handler all hold the time between these
    two; when classification raises after the handler returned, the error
    record holds the time up to a third reading, taken after the response was
    captured. *)
Theorem durations_are_clock_differences
        ext config request call_next w rec d :
  In rec (emitted w (snd (dispatch ext config request call_next w))) ->
  duration_of rec = Some d ->
  let t0 := reading w 0 in
  let t1 := reading w 1 in
  let t2 := reading w 2 in
  match call_next request with
  | Raise _ => d = elapsed_ms t0 t1
  | Ok _ =>
      if is_info rec then d = elapsed_ms t0 t1 else d = elapsed_ms t0 t2
  end.
Proof.
  destruct (dispatch_traced ext config request call_next w)
    as (_ & EM & _).
  rewrite EM. unfold trace, request_body_warnings, response_body_warnings.
  cbv zeta.
  destruct (call_next request) as [response|e].
  - destruct (_extract_business_event ext config request _ _) as [ev|e];
      intros I D; simpl in I;
      repeat (apply in_app_or in I as [I | I]);
      repeat match type of I with
             | In _ (match ?x with _ => _ end) => destruct x
             end;
      simpl in I;
      repeat match type of I with
             | _ \/ _ => destruct I as [I | I]
             | False => destruct I
             end;
      subst rec; try discriminate D;
      simpl in D; injection D as <-; reflexivity.
  - intros I D. simpl in I.
    apply in_app_or in I as [I | I];
      repeat match type of I with
             | In _ (match ?x with _ => _ end) => destruct x
             end;
      simpl in I;
      repeat match type of I with
             | _ \/ _ => destruct I as [I | I]
             | False => destruct I
             end;
      subst rec; try discriminate D;
      simpl in D; injection D as <-; reflexivity.
Qed.

Lemma durations_are_clock_differences_witness :
  let request := Example.request_with "GET" "/" "" Example.anonymous in
  let run := dispatch Reference.ext Example.config request
                      (Example.returns (Example.respond 200 "{}"))
                      Example.world0 in
  exists rec,
    In rec (emitted Example.world0 (snd run)) /\
    duration_of rec = Some (elapsed_ms (inject_Z 100) (100125 # 1000)).
Proof.
  cbv zeta. eexists.
  match goal with
  | |- In ?rec ?l /\ _ =>
      assert (I : In rec l) by (vm_compute; left; reflexivity)
  end.
  split; [exact I|].
  match goal with
  | |- duration_of ?rec = _ =>
      assert (D : duration_of rec = Some (125000 # 1000))
        by (vm_compute; reflexivity)
  end.
  rewrite D. apply f_equal.
  exact (durations_are_clock_differences
           Reference.ext Example.config _ _ Example.world0 _ I D).
Defined.

(** X10. What [dispatch] leaves in the logging context, whether it returns or
    raises: [correlation_id] is bound to the correlation id of the request;
    [user_id] is bound to the user identifier when that identifier is truthy
    and left as it was otherwise; no other variable changes, and nothing is
    unbound. *)
Theorem logging_context_after_dispatch ext config request call_next w :
  let ctx := context (snd (dispatch ext config request call_next w)) in
  let user_id := user_id_of (state request) in
  dict_get ctx "correlation_id" = Some (opt_str (correlation w)) /\
  (truthy user_id = true -> dict_get ctx "user_id" = Some user_id) /\
  (truthy user_id = false ->
   dict_get ctx "user_id" = dict_get (context w) "user_id") /\
  (forall k, k <> "correlation_id"%string -> k <> "user_id"%string ->
             dict_get ctx k = dict_get (context w) k).
Proof.
  cbv zeta.
  destruct (dispatch_traced ext config request call_next w)
    as (_ & _ & _ & C & _).
  rewrite C. unfold bound_context.
  destruct (truthy (user_id_of (state request))); repeat split.
  - rewrite dict_get_set_other by discriminate. apply dict_get_set.
  - intros _. apply dict_get_set.
  - discriminate.
  - intros k H1 H2. now rewrite !dict_get_set_other.
  - apply dict_get_set.
  - discriminate.
  - intros _. now rewrite dict_get_set_other by discriminate.
  - intros k H1 H2. now rewrite dict_get_set_other.
Qed.

Lemma warnings_are_plain ext config request :
  forallb is_plain_warning (request_body_warnings ext config request) = true /\
  (List.length (request_body_warnings ext config request) <= 1)%nat.
Proof.
  unfold request_body_warnings.
  destruct (capture_failure ext config (body request)); split; simpl; auto.
Qed.

Lemma response_warnings_are_plain ext config response :
  forallb is_plain_warning (response_body_warnings ext config response) = true /\
  (List.length (response_body_warnings ext config response) <= 1)%nat.
Proof.
  unfold response_body_warnings.
  destruct (response_body response); try (split; simpl; auto; fail).
  destruct (capture_failure ext config (Ok b)); split; simpl; auto.
Qed.

(** X11. A run of [dispatch] only appends to the sink: the records that were
    there stay, in order; then come at most two warnings, one per body whose
    capture failed; the info or error record comes last. *)
Theorem sink_only_grows ext config request call_next w :
  exists warns final,
    sink (snd (dispatch ext config request call_next w))
    = sink w ++ warns ++ [final] /\
    (List.length warns <= 2)%nat /\
    forallb is_plain_warning warns = true /\
    is_plain_warning final = false.
Proof.
  destruct (dispatch_traced ext config request call_next w)
    as (_ & _ & S & _).
  rewrite S. unfold trace.
  pose proof (warnings_are_plain ext config request) as [P1 L1].
  destruct (call_next request) as [response|e].
  - pose proof (response_warnings_are_plain ext config response) as [P2 L2].
    destruct (_extract_business_event ext config request _ _) as [ev|e];
      simpl; eexists (_ ++ _), _; (split; [now rewrite <- app_assoc|]);
      (split; [rewrite length_app; lia|]);
      (split; [rewrite forallb_app, P1, P2; reflexivity | reflexivity]).
  - simpl. eexists _, _. split; [reflexivity|].
    split; [lia|]. split; [exact P1 | reflexivity].
Qed.

Lemma capture_failure_cases ext config b e :
  b = Raise e \/
  (exists B, b = Ok B /\ B <> [] /\ len B <= payload_size_limit config /\
             json_loads ext B = JsonRaises e) ->
  capture_failure ext config b = Some e.
Proof.
  intros [-> | (B & -> & HN & HL & HJ)]; [reflexivity|].
  unfold capture_failure.
  now rewrite (@parse_raises ext config B e HN HL HJ).
Qed.

(** X20. A request body that cannot be captured does not stop the request.
    When reading the body raises [e], or when [json.loads] raises an [e] that
    is not a [JSONDecodeError] on a payload within the limit, the first
    record of the run is a warning with the text of [e], the request record
    has [None] as body, and [dispatch] still returns the response of the
    handler whenever classification does not raise. *)
Theorem body_capture_failure_is_survived
        ext config request call_next w e :
  body request = Raise e \/
  (exists B, body request = Ok B /\ B <> [] /\
             len B <= payload_size_limit config /\
             json_loads ext B = JsonRaises e) ->
  let run := dispatch ext config request call_next w in
  let rd := request_record ext config request (correlation w) in
  (exists rest,
      emitted w (snd run)
      = warning_record ("Failed to capture request body: " ++ exn_str e)
          :: rest) /\
  rd_body rd = PyNone /\
  (forall rec rd', In rec (emitted w (snd run)) ->
                   request_of rec = Some rd' -> rd' = rd) /\
  (forall response,
      call_next request = Ok response ->
      (forall rs e', _extract_business_event ext config request rd rs
                     <> Raise e') ->
      fst run = Ok (with_correlation_header config (correlation w) response)).
Proof.
  intros H. apply capture_failure_cases in H. cbv zeta.
  destruct (dispatch_traced ext config request call_next w)
    as (E & EM & _).
  split; [|split; [|split]].
  - rewrite EM. unfold trace, request_body_warnings. rewrite H.
    destruct (call_next request) as [response|e'];
      [destruct (_extract_business_event ext config request _ _)|];
      simpl; eexists; reflexivity.
  - simpl. destruct (capture_request_body_traced ext config request w)
      as (_ & _ & _ & N). now apply (N e).
  - intros rec rd' I R.
    now apply (emitted_request_records ext config request call_next w rec).
  - intros response HC HE. rewrite E. unfold trace. rewrite HC.
    destruct (_extract_business_event ext config request _ _) as [ev|e'] eqn:EV;
      [reflexivity | now apply HE in EV].
Qed.

Lemma body_capture_failure_is_survived_witness :
  let disconnected := mk_exn "ClientDisconnect" "client went away" in
  let request :=
    {| method := "POST"; url_path := "/folders"; headers := [];
       query_params := []; body := Raise disconnected;
       state := Example.anonymous |} in
  let run := dispatch Reference.ext Example.config request
                      (Example.returns (Example.respond 201 "{}"))
                      Example.world0 in
  fst run = Ok (Example.respond 201 "{}") /\
  exists rest,
    emitted Example.world0 (snd run)
    = warning_record "Failed to capture request body: client went away"
        :: rest.
Proof.
  cbv zeta. split; [vm_compute; reflexivity|].
  exact (proj1 (body_capture_failure_is_survived
                  Reference.ext Example.config
                  {| method := "POST"; url_path := "/folders"; headers := [];
                     query_params := [];
                     body := Raise (mk_exn "ClientDisconnect"
                                           "client went away");
                     state := Example.anonymous |}
                  (Example.returns (Example.respond 201 "{}"))
                  Example.world0 (or_introl eq_refl))).
Defined.

(** X12. With a limit of zero every non-empty payload is truncated to an
    empty preview; with a negative limit every non-empty payload is truncated
    too, and the preview is the payload without its last [-limit] bytes, as
    slicing with a negative bound gives. *)
Theorem non_positive_limit_truncates_everything ext config B :
  B <> [] ->
  (payload_size_limit config = 0 ->
   _parse_body_bytes ext config B
   = Ok (truncated (len B) (decode_replace ext []))) /\
  (payload_size_limit config < 0 ->
   _parse_body_bytes ext config B
   = Ok (truncated (len B)
           (decode_replace ext
              (firstn (List.length B - Z.to_nat (- payload_size_limit config))
                      B)))).
Proof.
  intros HN. unfold _parse_body_bytes.
  destruct B as [|b B']; [congruence|].
  assert (P : 0 < len (b :: B')) by (unfold len; simpl List.length; lia).
  split; intros HL.
  - rewrite HL.
    replace (0 <? len (b :: B')) with true by (symmetry; now apply Z.ltb_lt).
    reflexivity.
  - replace (payload_size_limit config <? len (b :: B')) with true
      by (symmetry; apply Z.ltb_lt; lia).
    unfold slice_to.
    now replace (0 <=? payload_size_limit config) with false
      by (symmetry; apply Z.leb_gt; lia).
Qed.

Lemma non_positive_limit_truncates_everything_witness :
  let config :=
    {| service_name := "example-api";
       correlation_id_header := "X-Correlation-ID";
       log_request_headers := false; log_response_headers := false;
       log_query_params := false; payload_size_limit := -2;
       additional_redaction_patterns := []; business_events := [] |} in
  _parse_body_bytes Reference.ext config (Example.payload_bytes "secret!")
  = Ok (truncated 7 "secre").
Proof.
  cbv zeta.
  refine (eq_trans (proj2 (non_positive_limit_truncates_everything
                             Reference.ext _
                             (B := Example.payload_bytes "secret!") _) _) _).
  - discriminate.
  - reflexivity.
  - vm_compute. reflexivity.
Defined.

(** ** The business context *)

Lemma copy_fields_lookup {V} (inj : V -> pyval) fields (source : dict V) ctx k :
  dict_get (copy_fields inj fields source ctx) k
  = match requested fields source k with
    | Some v => Some (inj v)
    | None => dict_get ctx k
    end.
Proof.
  unfold copy_fields, requested. revert ctx.
  induction fields as [|f fields IH]; intros ctx; simpl; [reflexivity|].
  rewrite IH. destruct (String.eqb_spec k f) as [->|N]; simpl.
  - destruct (dict_get source f) as [v|] eqn:G.
    + destruct (existsb (String.eqb f) fields); [reflexivity|].
      apply dict_get_set.
    + destruct (existsb (String.eqb f) fields); reflexivity.
  - assert (S : dict_get match dict_get source f with
                         | Some v => dict_set ctx f (inj v)
                         | None => ctx
                         end k = dict_get ctx k).
    { destruct (dict_get source f); [now apply dict_get_set_other|reflexivity]. }
    rewrite S. reflexivity.
Qed.

Lemma extract_from_body_lookup fields captured_body ctx k :
  dict_get (extract_from_body fields captured_body ctx) k
  = match requested_in_body fields captured_body k with
    | Some v => Some v
    | None => dict_get ctx k
    end.
Proof.
  unfold extract_from_body, requested_in_body.
  destruct fields as [|f fields].
  - destruct captured_body; reflexivity.
  - destruct captured_body as [|b|z|fl|s|l|d]; cbn [truthy isinstance_dict].
    + reflexivity.
    + now destruct b.
    + now destruct (negb (z =? 0)).
    + now destruct fl.
    + now destruct (negb (String.eqb s "")).
    + now destruct l.
    + destruct d as [|kv d].
      * unfold requested. cbn [dict_get]. now destruct (existsb _ _).
      * apply (copy_fields_lookup (fun v => v)).
Qed.

Lemma context_lookup ext request rd rs pattern ec ev :
  build_event ext request rd rs pattern ec = Ok ev ->
  exists path_params,
    (extract_from_path ec = [] \/
     _extract_path_params ext (url_path request) pattern = Ok path_params) /\
    forall k,
      dict_get (be_business_context ev) k
      = match requested (extract_from_path ec) path_params k with
        | Some v => Some (PyStr v)
        | None =>
            match requested_in_body (extract_from_response ec) (rs_body rs) k
            with
            | Some v => Some v
            | None =>
                requested_in_body (extract_from_request ec) (rd_body rd) k
            end
        end.
Proof.
  unfold build_event.
  assert (B : forall k,
             dict_get (extract_from_body (extract_from_response ec) (rs_body rs)
                         (extract_from_body (extract_from_request ec)
                            (rd_body rd) [])) k
             = match requested_in_body (extract_from_response ec) (rs_body rs) k
               with
               | Some v => Some v
               | None => requested_in_body (extract_from_request ec)
                                           (rd_body rd) k
               end).
  { intros k. rewrite !extract_from_body_lookup. simpl.
    destruct (requested_in_body (extract_from_response ec) (rs_body rs) k);
      [reflexivity|].
    now destruct (requested_in_body (extract_from_request ec) (rd_body rd) k). }
  destruct (extract_from_path ec) as [|p params] eqn:EP.
  - intros H. injection H as <-. exists []. split; [now left|].
    intros k. cbn [be_business_context]. unfold requested at 1.
    cbn [existsb]. apply B.
  - destruct (_extract_path_params ext (url_path request) pattern)
      as [path_params|e]; [|discriminate].
    intros H. injection H as <-. exists path_params. split; [now right|].
    intros k. cbn [be_business_context].
    etransitivity.
    { exact (copy_fields_lookup PyStr (p :: params) path_params
               (extract_from_body (extract_from_response ec) (rs_body rs)
                  (extract_from_body (extract_from_request ec)
                     (rd_body rd) [])) k). }
    destruct (requested (p :: params) path_params k); [reflexivity|]. apply B.
Qed.

(** X17. What the business context of an event holds under a name [k]: the
    path parameter [k] when [k] is listed in [extract_from_path] and the
    pattern captured it; otherwise the field [k] of the captured response
    body when [k] is listed in [extract_from_response] and that body is a
    mapping holding it; otherwise the field [k] of the captured request body
    under the same conditions; otherwise nothing.  So on a name listed twice
    the path wins over the response, which wins over the request, and every
    value taken from a body is the value the logged, redacted body has. *)
Theorem business_context_lookup ext request rd rs pattern ec ev :
  build_event ext request rd rs pattern ec = Ok ev ->
  exists path_params,
    (extract_from_path ec = [] \/
     _extract_path_params ext (url_path request) pattern = Ok path_params) /\
    forall k,
      dict_get (be_business_context ev) k
      = match requested (extract_from_path ec) path_params k with
        | Some v => Some (PyStr v)
        | None =>
            match requested_in_body (extract_from_response ec) (rs_body rs) k
            with
            | Some v => Some v
            | None =>
                requested_in_body (extract_from_request ec) (rd_body rd) k
            end
        end.
Proof.
  unfold build_event.
  assert (B : forall k,
             dict_get (extract_from_body (extract_from_response ec) (rs_body rs)
                         (extract_from_body (extract_from_request ec)
                            (rd_body rd) [])) k
             = match requested_in_body (extract_from_response ec) (rs_body rs) k
               with
               | Some v => Some v
               | None => requested_in_body (extract_from_request ec)
                                           (rd_body rd) k
               end).
  { intros k. rewrite !extract_from_body_lookup. simpl.
    destruct (requested_in_body (extract_from_response ec) (rs_body rs) k);
      [reflexivity|].
    now destruct (requested_in_body (extract_from_request ec) (rd_body rd) k). }
  destruct (extract_from_path ec) as [|p params] eqn:EP.
  - intros H. injection H as <-. exists []. split; [now left|].
    intros k. cbn [be_business_context]. unfold requested at 1.
    cbn [existsb]. apply B.
  - destruct (_extract_path_params ext (url_path request) pattern)
      as [path_params|e]; [|discriminate].
    intros H. injection H as <-. exists path_params. split; [now right|].
    intros k. cbn [be_business_context].
    etransitivity.
    { exact (copy_fields_lookup PyStr (p :: params) path_params
               (extract_from_body (extract_from_response ec) (rs_body rs)
                  (extract_from_body (extract_from_request ec)
                     (rd_body rd) [])) k). }
    destruct (requested (p :: params) path_params k); [reflexivity|]. apply B.
Qed.

Lemma business_context_lookup_witness :
  let request :=
    Example.request_with "POST" "/folders"
      "{'name':'Docs','parent_id':'r1','password':'x'}" Example.anonymous in
  let rd := request_record Reference.ext Example.config request None in
  let rs := response_record Reference.ext Example.config
              (Example.respond 201 "{'name': 'Docs (1)'}") (inject_Z 1) in
  let ec := {| event_type := "folder.created";
               extract_from_request := ["name"; "password"];
               extract_from_response := ["name"];
               extract_from_path := [] |} in
  exists ev,
    build_event Reference.ext request rd rs "POST /folders" ec = Ok ev /\
    dict_get (be_business_context ev) "name" = Some (PyStr "Docs (1)") /\
    dict_get (be_business_context ev) "password"
    = Some (PyStr Reference.MASK) /\
    dict_get (be_business_context ev) "parent_id" = None.
Proof.
  cbv zeta. eexists.
  match goal with
  | |- ?b = Ok ?ev /\ _ =>
      assert (E : b = Ok ev) by (vm_compute; reflexivity)
  end.
  split; [exact E|].
  destruct (business_context_lookup _ _ _ _ _ _ E) as (pp & _ & L).
  rewrite !L. repeat split; vm_compute; reflexivity.
Defined.

Lemma dict_set_keys {V} (d : dict V) k v :
  map fst (dict_set d k v)
  = match dict_get d k with
    | Some _ => map fst d
    | None => map fst d ++ [k]
    end.
Proof.
  induction d as [|[k0 v0] d IH]; simpl; [reflexivity|].
  destruct (String.eqb_spec k k0) as [->|N]; simpl; [reflexivity|].
  rewrite IH. now destruct (dict_get d k).
Qed.

Lemma dict_get_in_keys {V} (d : dict V) k :
  dict_get d k = None -> ~ In k (map fst d).
Proof.
  induction d as [|[k0 v0] d IH]; simpl; [tauto|].
  destruct (String.eqb_spec k k0) as [->|N]; [discriminate|].
  intros H [E | I]; [congruence | now apply IH].
Qed.

Lemma dict_set_nodup {V} (d : dict V) k v :
  NoDup (map fst d) -> NoDup (map fst (dict_set d k v)).
Proof.
  intros H. rewrite dict_set_keys. destruct (dict_get d k) eqn:G; [exact H|].
  apply NoDup_app; [exact H | repeat constructor; intros [] |].
  intros x I [<- | []]. now apply dict_get_in_keys in G.
Qed.

Lemma copy_fields_nodup {V} (inj : V -> pyval) fields (source : dict V) ctx :
  NoDup (map fst ctx) -> NoDup (map fst (copy_fields inj fields source ctx)).
Proof.
  unfold copy_fields. revert ctx.
  induction fields as [|f fields IH]; intros ctx H; simpl; [exact H|].
  apply IH. destruct (dict_get source f); [now apply dict_set_nodup | exact H].
Qed.

(** X18. The business context of an event is a mapping: no name occurs in it
    twice, however the three lists of names overlap or repeat themselves, and
    only listed names occur in it. *)
Theorem business_context_is_a_mapping ext request rd rs pattern ec ev :
  build_event ext request rd rs pattern ec = Ok ev ->
  NoDup (map fst (be_business_context ev)) /\
  forall k, In k (map fst (be_business_context ev)) ->
            In k (extract_from_request ec ++ extract_from_response ec
                    ++ extract_from_path ec).
Proof.
  intros H. split.
  - revert H. unfold build_event.
    assert (B : NoDup (map fst
                 (extract_from_body (extract_from_response ec) (rs_body rs)
                    (extract_from_body (extract_from_request ec)
                       (rd_body rd) [])))).
    { assert (X : forall fields b ctx,
                 NoDup (map fst ctx) ->
                 NoDup (map fst (extract_from_body fields b ctx))).
      { intros fields b ctx N. unfold extract_from_body.
        destruct fields; [exact N|]. destruct (truthy b); [|exact N].
        destruct (isinstance_dict b); [|exact N].
        now apply copy_fields_nodup. }
      apply X, X. constructor. }
    destruct (extract_from_path ec) as [|p params].
    + intros H. now injection H as <-.
    + destruct (_extract_path_params ext (url_path request) pattern)
        as [path_params|e]; [|discriminate].
      intros H. injection H as <-.
      exact (copy_fields_nodup PyStr (p :: params) path_params _ B).
  - intros k I.
    destruct (dict_get (be_business_context ev) k) as [v|] eqn:G;
      [|now apply dict_get_in_keys in G].
    destruct (context_lookup _ _ _ _ _ _ H) as (pp & _ & L).
    rewrite L in G. unfold requested_in_body, requested in G.
    assert (X : forall l, existsb (String.eqb k) l = true -> In k l).
    { intros l E. apply existsb_exists in E as (x & Ix & Ex).
      apply String.eqb_eq in Ex. now subst. }
    rewrite !in_app_iff.
    destruct (existsb (String.eqb k) (extract_from_path ec)) eqn:E1;
      [right; right; now apply X|].
    destruct (rs_body rs); destruct (rd_body rd);
      try discriminate G;
      try (destruct (existsb (String.eqb k) (extract_from_response ec)) eqn:E2;
           [right; left; now apply X|]);
      try (destruct (existsb (String.eqb k) (extract_from_request ec)) eqn:E3;
           [left; now apply X|]);
      discriminate G.
Qed.

Lemma business_context_is_a_mapping_witness :
  let request :=
    Example.request_with "POST" "/folders" "{'name':'Docs'}"
                         Example.anonymous in
  let rd := request_record Reference.ext Example.config request None in
  let rs := response_record Reference.ext Example.config
              (Example.respond 201 "{'name': 'Docs (1)'}") (inject_Z 1) in
  let ec := {| event_type := "folder.created";
               extract_from_request := ["name"; "name"];
               extract_from_response := ["name"];
               extract_from_path := [] |} in
  exists ev,
    build_event Reference.ext request rd rs "POST /folders" ec = Ok ev /\
    NoDup (map fst (be_business_context ev)).
Proof.
  cbv zeta. eexists.
  match goal with
  | |- ?b = Ok ?ev /\ _ =>
      assert (E : b = Ok ev) by (vm_compute; reflexivity)
  end.
  split; [exact E|].
  exact (proj1 (business_context_is_a_mapping _ _ _ _ _ _ E)).
Defined.

(** ** Methods and patterns *)

Lemma split_method_path m p :
  split_first_space m = None ->
  split_first_space (m ++ " " ++ p) = Some (m, p).
Proof.
  change (" " ++ p)%string with (String " " p).
  induction m as [|c m IH]; simpl; [reflexivity|].
  destruct (Ascii.eqb c " "); [discriminate|].
  destruct (split_first_space m) as [[a b]|] eqn:E; [discriminate|].
  intros _. now rewrite IH.
Qed.

Lemma other_method_is_no_match ext m path pattern :
  split_first_space m = None ->
  (forall pm pp, split_first_space pattern = Some (pm, pp) -> pm <> m) ->
  _matches_endpoint_pattern ext (m ++ " " ++ path) pattern = Ok false.
Proof.
  intros Hm Hp. unfold _matches_endpoint_pattern.
  rewrite (split_method_path m path Hm).
  destruct (split_first_space pattern) as [[pm pp]|]; [|reflexivity].
  destruct (String.eqb_spec m pm) as [->|]; [|reflexivity].
  now destruct (Hp pm pp eq_refl).
Qed.

(** X19. Patterns written for other methods never touch a request.  When no
    configured pattern has the method of the request before its first space,
    classification finds no event without consulting the engine at all, so
    even a pattern the engine cannot compile is harmless: a handler that
    returns gets its response back and a success record without event. *)
Theorem other_methods_are_never_consulted
        ext config request call_next w response :
  split_first_space (method request) = None ->
  (forall p c pm pp,
      In (p, c) (business_events config) ->
      split_first_space p = Some (pm, pp) -> pm <> method request) ->
  call_next request = Ok response ->
  let run := dispatch ext config request call_next w in
  (forall rd rs, _extract_business_event ext config request rd rs = Ok None) /\
  fst run = Ok (with_correlation_header config (correlation w) response) /\
  exists rec,
    In rec (emitted w (snd run)) /\ is_info rec = true /\ event_of rec = None.
Proof.
  intros Hm Hp HC. cbv zeta.
  assert (N : forall rd rs,
             _extract_business_event ext config request rd rs = Ok None).
  { intros rd rs. apply no_match_no_event. intros p c I.
    apply other_method_is_no_match; [exact Hm|].
    intros pm pp. now apply (Hp p c). }
  split; [exact N|].
  destruct (dispatch_traced ext config request call_next w) as (E & EM & _).
  rewrite E, EM. unfold trace. rewrite HC, N. simpl. split; [reflexivity|].
  eexists. split.
  - apply in_or_app. right. apply in_or_app. right. now left.
  - split; reflexivity.
Qed.

Lemma other_methods_are_never_consulted_witness :
  let config :=
    Example.with_events [("GET /notes/(draft", Example.folder_created)] in
  let request := Example.request_with "POST" "/notes" "{}"
                                      Example.anonymous in
  fst (dispatch Reference.ext config request
         (Example.returns (Example.respond 201 "{}")) Example.world0)
  = Ok (Example.respond 201 "{}").
Proof.
  cbv zeta.
  refine (proj1 (proj2 (other_methods_are_never_consulted
                          Reference.ext _ _ _ Example.world0
                          (response := Example.respond 201 "{}") _ _ _))).
  - reflexivity.
  - intros p c pm pp [H | []] S. injection H as <- <-.
    vm_compute in S. injection S as <- <-. discriminate.
  - reflexivity.
Defined.

Lemma build_event_raises_alike ext request rd rs rd' rs' pattern ec :
  match build_event ext request rd rs pattern ec,
        build_event ext request rd' rs' pattern ec with
  | Ok ev, Ok ev' => be_event_type ev = be_event_type ev'
  | Raise e, Raise e' => e = e'
  | _, _ => False
  end.
Proof.
  unfold build_event. destruct (extract_from_path ec); [reflexivity|].
  now destruct (_extract_path_params ext (url_path request) pattern).
Qed.

(** X21. Which event a request is classified as depends on its method and
    path only.  For any two captured request and response records,
    classification gives no event in both cases, or an event of the same type
    in both, or raises the same exception in both: the bodies only fill the
    business context. *)
Theorem classification_ignores_bodies ext config request rd rs rd' rs' :
  match _extract_business_event ext config request rd rs,
        _extract_business_event ext config request rd' rs' with
  | Ok None, Ok None => True
  | Ok (Some ev), Ok (Some ev') => be_event_type ev = be_event_type ev'
  | Raise e, Raise e' => e = e'
  | _, _ => False
  end.
Proof.
  rewrite !extract_business_event_loop.
  induction (business_events config) as [|[p c] events IH];
    cbn [first_event]; [exact I|].
  destruct (_matches_endpoint_pattern ext _ p) as [[|]|e]; trivial.
  pose proof (build_event_raises_alike ext request rd rs rd' rs' p c) as B.
  destruct (build_event ext request rd rs p c),
           (build_event ext request rd' rs' p c); trivial.
Qed.

(** ** Path templates and the engine *)

Lemma chars_app a b : chars (a ++ b) = chars a ++ chars b.
Proof. induction a as [|c a IH]; simpl; [reflexivity | now rewrite IH]. Qed.

Lemma str_of_chars s : str_of (chars s) = s.
Proof. apply string_of_list_ascii_of_string. Qed.

Lemma chars_str_of l : chars (str_of l) = l.
Proof. apply list_ascii_of_string_of_list_ascii. Qed.

Lemma plain_not_brace c : plain c = true -> Ascii.eqb c lbrace = false.
Proof.
  destruct (Ascii.eqb_spec c lbrace) as [->|]; [discriminate | reflexivity].
Qed.

Lemma scan_sub_plain repl p rest :
  forallb plain p = true ->
  scan_sub repl None (p ++ rest) = p ++ scan_sub repl None rest.
Proof.
  induction p as [|c p IH]; simpl; [reflexivity|].
  intros H. apply andb_prop in H as [Hc Hp].
  now rewrite (plain_not_brace _ Hc), IH.
Qed.

Lemma scan_sub_pending repl acc name rest :
  existsb (Ascii.eqb rbrace) name = false ->
  acc ++ name <> [] ->
  scan_sub repl (Some acc) (name ++ rbrace :: rest)
  = repl ++ scan_sub repl None rest.
Proof.
  revert acc. induction name as [|c name IH]; intros acc Hn Hne;
    cbn [app scan_sub].
  - rewrite Ascii.eqb_refl. rewrite app_nil_r in Hne.
    destruct acc; [congruence | reflexivity].
  - cbn [existsb] in Hn. apply orb_false_elim in Hn as [Hc Hn].
    rewrite Ascii.eqb_sym, Hc. apply IH; [exact Hn|].
    cbn [app]. discriminate.
Qed.

Lemma scan_findall_plain p rest :
  forallb plain p = true ->
  scan_findall None (p ++ rest) = scan_findall None rest.
Proof.
  induction p as [|c p IH]; simpl; [reflexivity|].
  intros H. apply andb_prop in H as [Hc Hp].
  now rewrite (plain_not_brace _ Hc), IH.
Qed.

Lemma scan_findall_pending acc name rest :
  existsb (Ascii.eqb rbrace) name = false ->
  acc ++ name <> [] ->
  scan_findall (Some acc) (name ++ rbrace :: rest)
  = str_of (rev acc ++ name) :: scan_findall None rest.
Proof.
  revert acc. induction name as [|c name IH]; intros acc Hn Hne;
    cbn [app scan_findall].
  - rewrite Ascii.eqb_refl. rewrite !app_nil_r in *.
    destruct acc; [congruence | reflexivity].
  - cbn [existsb] in Hn. apply orb_false_elim in Hn as [Hc Hn].
    rewrite Ascii.eqb_sym, Hc.
    rewrite IH; [|exact Hn|cbn [app]; discriminate].
    cbn [rev]. now rewrite <- app_assoc.
Qed.

Lemma scan_sub_placeholder repl name rest :
  existsb (Ascii.eqb rbrace) name = false -> name <> [] ->
  scan_sub repl None (lbrace :: name ++ rbrace :: rest)
  = repl ++ scan_sub repl None rest.
Proof.
  intros Hn Hne. cbn [scan_sub]. rewrite Ascii.eqb_refl.
  now apply scan_sub_pending.
Qed.

Lemma scan_findall_placeholder name rest :
  existsb (Ascii.eqb rbrace) name = false -> name <> [] ->
  scan_findall None (lbrace :: name ++ rbrace :: rest)
  = str_of name :: scan_findall None rest.
Proof.
  intros Hn Hne. cbn [scan_findall]. rewrite Ascii.eqb_refl.
  now rewrite scan_findall_pending.
Qed.

Lemma chars_placeholder n t r :
  chars ("{" ++ n ++ "}" ++ t ++ r)
  = lbrace :: chars n ++ rbrace :: chars t ++ chars r.
Proof.
  change ("{" ++ n ++ "}" ++ t ++ r)%string
    with (String lbrace (n ++ String rbrace (t ++ r))).
  cbn [chars list_ascii_of_string]. f_equal.
  change (list_ascii_of_string (n ++ String rbrace (t ++ r)))
    with (chars (n ++ String rbrace (t ++ r))).
  rewrite chars_app. f_equal. cbn [chars list_ascii_of_string]. f_equal.
  apply chars_app.
Qed.

Lemma good_name_chars n :
  good_name n = true ->
  existsb (Ascii.eqb rbrace) (chars n) = false /\ chars n <> [].
Proof.
  unfold good_name. intros H. apply andb_prop in H as [H1 H2].
  apply negb_true_iff in H1, H2. split; [exact H2|].
  intros E. destruct n; [discriminate H1 | discriminate E].
Qed.

Lemma well_formed_params_cons n t rest :
  well_formed_params ((n, t) :: rest) = true ->
  good_name n = true /\ plain_text t = true /\
  (starts_with_slash t = true \/ t = ""%string /\ rest = []) /\
  well_formed_params rest = true.
Proof.
  cbn [well_formed_params]. intros H.
  apply andb_prop in H as [H Hr]. apply andb_prop in H as [H Hs].
  apply andb_prop in H as [Hn Ht].
  repeat split; trivial.
  apply orb_prop in Hs as [Hs | Hs]; [now left | right].
  apply andb_prop in Hs as [E L]. apply String.eqb_eq in E.
  split; [exact E | now destruct rest].
Qed.

Lemma scan_sub_params repl params :
  well_formed_params params = true ->
  scan_sub repl None (chars (render_params params))
  = regex_params repl params.
Proof.
  induction params as [|[n t] rest IH]; [reflexivity|].
  intros H. apply well_formed_params_cons in H as (Hn & Ht & _ & Hr).
  apply good_name_chars in Hn as [Hn Hne].
  cbn [render_params regex_params]. rewrite chars_placeholder.
  rewrite scan_sub_placeholder; [|exact Hn|exact Hne].
  f_equal. rewrite scan_sub_plain by exact Ht. f_equal. now apply IH.
Qed.

Lemma scan_findall_params params :
  well_formed_params params = true ->
  scan_findall None (chars (render_params params)) = map fst params.
Proof.
  induction params as [|[n t] rest IH]; [reflexivity|].
  intros H. apply well_formed_params_cons in H as (Hn & Ht & _ & Hr).
  apply good_name_chars in Hn as [Hn Hne].
  cbn [render_params map fst]. rewrite chars_placeholder.
  rewrite scan_findall_placeholder; [|exact Hn|exact Hne].
  rewrite str_of_chars. f_equal.
  rewrite scan_findall_plain by exact Ht. now apply IH.
Qed.

Lemma plain_classify c :
  plain c = true ->
  classify c = Lit c /\ Ascii.eqb "(" c = false /\ Ascii.eqb "[" c = false.
Proof.
  intros H. split; [|split].
  - unfold plain in H. destruct (classify c) eqn:E; try discriminate H.
    unfold classify in E.
    destruct (Ascii.eqb c "."); [discriminate|].
    destruct (Ascii.eqb c "("); [discriminate|].
    destruct (Ascii.eqb c ")"); [discriminate|].
    destruct (existsb (Ascii.eqb c) special); [discriminate|].
    congruence.
  - destruct (Ascii.eqb_spec "(" c) as [<-|]; [discriminate H | reflexivity].
  - destruct (Ascii.eqb_spec "[" c) as [<-|]; [discriminate H | reflexivity].
Qed.

Lemma tokenize_plain p rest fuel :
  forallb plain p = true ->
  (List.length (p ++ rest) <= fuel)%nat ->
  tokenize fuel (p ++ rest)
  = map Lit p ++ tokenize (fuel - List.length p) rest.
Proof.
  revert fuel. induction p as [|c p IH]; intros fuel H L.
  - cbn [app map List.length]. now rewrite Nat.sub_0_r.
  - cbn [forallb] in H. apply andb_prop in H as [Hc Hp].
    destruct (plain_classify c Hc) as (C & P1 & P2).
    destruct fuel as [|f]; [cbn [app List.length] in L; lia|].
    cbn [app tokenize chars list_ascii_of_string strip_prefix].
    rewrite P1, P2, C. cbn [map app List.length Nat.sub]. f_equal.
    apply IH; [exact Hp|]. cbn [app List.length] in L. lia.
Qed.

Lemma strip_prefix_app p l : strip_prefix p (p ++ l) = Some l.
Proof.
  induction p as [|c p IH]; [now destruct l|].
  cbn [app strip_prefix]. now rewrite Ascii.eqb_refl.
Qed.

Lemma tokenize_seg captured rest fuel :
  (List.length (seg_text captured ++ rest) <= fuel)%nat ->
  tokenize fuel (seg_text captured ++ rest)
  = Seg captured :: tokenize (fuel - 1) rest.
Proof.
  intros L. destruct fuel as [|f].
  - destruct captured; cbn in L; lia.
  - cbn [Nat.sub]. rewrite Nat.sub_0_r. destruct captured.
    + change (tokenize (S f) (seg_text true ++ rest))
        with (match strip_prefix (chars "([^/]+)") (seg_text true ++ rest) with
              | Some r => Seg true :: tokenize f r
              | None => [] end).
      unfold seg_text. now rewrite strip_prefix_app.
    + reflexivity.
Qed.

Lemma tokenize_params captured params fuel :
  forallb (fun nt => plain_text (snd nt)) params = true ->
  (List.length (regex_params (seg_text captured) params) <= fuel)%nat ->
  tokenize fuel (regex_params (seg_text captured) params)
  = atoms_params captured params.
Proof.
  revert fuel. induction params as [|[n t] rest IH]; intros fuel H L.
  - now destruct fuel.
  - cbn [forallb snd] in H. apply andb_prop in H as [Ht Hr].
    cbn [regex_params atoms_params] in *.
    rewrite tokenize_seg by exact L.
    assert (S : (1 <= List.length (seg_text captured))%nat)
      by (destruct captured; cbn; lia).
    rewrite !length_app in L.
    rewrite tokenize_plain; [|exact Ht|rewrite length_app; lia].
    do 2 f_equal. apply IH; [exact Hr | lia].
Qed.

Lemma match_lits p atoms s :
  match_atoms (map Lit p ++ atoms) (p ++ s) = match_atoms atoms s.
Proof.
  induction p as [|c p IH]; [reflexivity|].
  cbn [map app match_atoms]. now rewrite Ascii.eqb_refl.
Qed.

Lemma match_lits_inv p atoms s gs :
  match_atoms (map Lit p ++ atoms) s = Some gs ->
  exists s', s = p ++ s' /\ match_atoms atoms s' = Some gs.
Proof.
  revert s. induction p as [|c p IH]; intros s.
  - intros H. now exists s.
  - cbn [map app match_atoms]. destruct s as [|c' s]; [discriminate|].
    destruct (Ascii.eqb_spec c c') as [<-|]; [|discriminate].
    intros H. destruct (IH s H) as (s' & -> & M). now exists s'.
Qed.

Lemma match_seg_greedy {X} (k : list ascii -> option X) v rest x :
  v <> [] ->
  existsb (Ascii.eqb slash) v = false ->
  (rest = [] \/ exists r, rest = slash :: r) ->
  k rest = Some x ->
  match_seg k (v ++ rest) = Some (v, x).
Proof.
  intros Hne Hv Hr Hk.
  assert (N : match_seg k rest = None).
  { destruct Hr as [-> | [r ->]]; [reflexivity|].
    cbn [match_seg]. now rewrite Ascii.eqb_refl. }
  induction v as [|c v IH]; [congruence|].
  cbn [existsb] in Hv. apply orb_false_elim in Hv as [Hc Hv].
  cbn [app match_seg]. rewrite Ascii.eqb_sym, Hc.
  destruct v as [|c' v].
  - cbn [app]. now rewrite N, Hk.
  - now rewrite IH.
Qed.

Lemma good_value_chars v :
  good_value v = true ->
  chars v <> [] /\ existsb (Ascii.eqb slash) (chars v) = false.
Proof.
  unfold good_value. intros H. apply andb_prop in H as [H1 H2].
  apply negb_true_iff in H1, H2. split; [|exact H2].
  intros E. destruct v; [discriminate H1 | discriminate E].
Qed.

Lemma match_params captured params values :
  well_formed_params params = true ->
  List.length values = List.length params ->
  forallb good_value values = true ->
  match_atoms (atoms_params captured params)
              (chars (fill_params params values))
  = Some (if captured then values else []).
Proof.
  revert values. induction params as [|[n t] rest IH]; intros values W L G.
  - destruct values; [|discriminate L]. now destruct captured.
  - destruct values as [|v vs]; [discriminate L|].
    apply well_formed_params_cons in W as (_ & Ht & Hs & Hr).
    cbn [forallb] in G. apply andb_prop in G as [Gv Gvs].
    apply good_value_chars in Gv as [Vne Vs].
    injection L as L.
    cbn [atoms_params fill_params match_atoms]. rewrite !chars_app.
    rewrite (@match_seg_greedy _
               (match_atoms (map Lit (chars t) ++ atoms_params captured rest))
               (chars v) (chars t ++ chars (fill_params rest vs))
               (if captured then vs else []) Vne Vs).
    + rewrite str_of_chars. now destruct captured.
    + destruct Hs as [Hs | [-> ->]].
      * right. destruct t as [|c t]; [discriminate Hs|].
        cbn [starts_with_slash] in Hs. apply Ascii.eqb_eq in Hs. subst c.
        eexists. reflexivity.
      * left. now destruct vs.
    + rewrite match_lits. now apply IH.
Qed.

Lemma anchored_body_anchored body :
  anchored_body ("^" ++ str_of body ++ "$") = Some body.
Proof.
  unfold anchored_body.
  change ("^" ++ str_of body ++ "$")%string
    with (String "^" (str_of body ++ "$")).
  cbn [chars list_ascii_of_string]. rewrite Ascii.eqb_refl.
  change (list_ascii_of_string (str_of body ++ "$"))
    with (chars (str_of body ++ "$")).
  rewrite chars_app, chars_str_of. change (chars "$") with ["$"%char].
  rewrite rev_app_distr. cbn [rev app]. rewrite Ascii.eqb_refl.
  now rewrite rev_involutive.
Qed.

Lemma ordinary_atoms captured p params :
  let atoms := map Lit p ++ atoms_params captured params in
  existsb is_other atoms = false /\ existsb is_open atoms = false /\
  existsb is_close atoms = false.
Proof.
  cbv zeta.
  assert (A : forall l, existsb is_other (map Lit l) = false /\
                        existsb is_open (map Lit l) = false /\
                        existsb is_close (map Lit l) = false).
  { induction l as [|c l (I1 & I2 & I3)]; cbn; auto. }
  assert (B : existsb is_other (atoms_params captured params) = false /\
              existsb is_open (atoms_params captured params) = false /\
              existsb is_close (atoms_params captured params) = false).
  { induction params as [|[n t] rest (I1 & I2 & I3)]; [cbn; auto|].
    cbn [atoms_params existsb is_other is_open is_close orb].
    rewrite !existsb_app, I1, I2, I3.
    destruct (A (chars t)) as (A1 & A2 & A3). rewrite A1, A2, A3. auto. }
  rewrite !existsb_app. destruct (A p) as (A1 & A2 & A3).
  destruct B as (B1 & B2 & B3). rewrite A1, A2, A3, B1, B2, B3. auto.
Qed.

Lemma well_formed_texts params :
  well_formed_params params = true ->
  forallb (fun nt => plain_text (snd nt)) params = true.
Proof.
  induction params as [|[n t] rest IH]; [reflexivity|].
  intros W. apply well_formed_params_cons in W as (_ & Ht & _ & Hr).
  cbn [forallb snd]. now rewrite Ht, IH.
Qed.

(** The reference's answer for a well-formed template and a path that fills
    it. *)
Lemma reference_on_templates captured tpl values :
  well_formed tpl = true ->
  good_values tpl values = true ->
  re_match_ref
    ("^" ++ str_of (chars (fst tpl)
                      ++ regex_params (seg_text captured) (snd tpl)) ++ "$")
    (fill tpl values)
  = Some (RefMatch (if captured then values else [])).
Proof.
  destruct tpl as [prefix params]. unfold well_formed, good_values, fill.
  cbn [fst snd]. intros W G.
  apply andb_prop in W as [Wp Wr]. apply andb_prop in G as [GL GV].
  apply Nat.eqb_eq in GL.
  unfold re_match_ref. rewrite anchored_body_anchored.
  rewrite tokenize_plain; [|exact Wp|reflexivity].
  rewrite length_app, Nat.add_comm, Nat.add_sub.
  rewrite tokenize_params; [|now apply well_formed_texts|reflexivity].
  destruct (ordinary_atoms captured (chars prefix) params) as (O1 & O2 & O3).
  cbv zeta in O1, O2, O3. rewrite O1, O2, O3.
  rewrite chars_app, match_lits.
  now rewrite match_params.
Qed.

Lemma re_sub_on_template captured tpl :
  well_formed tpl = true ->
  re_sub_braces (str_of (seg_text captured)) (render tpl)
  = str_of (chars (fst tpl) ++ regex_params (seg_text captured) (snd tpl)).
Proof.
  destruct tpl as [prefix params]. unfold well_formed, render.
  cbn [fst snd]. intros W. apply andb_prop in W as [Wp Wr].
  unfold re_sub_braces. rewrite chars_app, chars_str_of.
  rewrite scan_sub_plain by exact Wp. now rewrite scan_sub_params.
Qed.

Lemma findall_on_template tpl :
  well_formed tpl = true ->
  re_findall_braces (render tpl) = map fst (snd tpl).
Proof.
  destruct tpl as [prefix params]. unfold well_formed, render.
  cbn [fst snd]. intros W. apply andb_prop in W as [Wp Wr].
  unfold re_findall_braces. rewrite chars_app.
  rewrite scan_findall_plain by exact Wp. now apply scan_findall_params.
Qed.

(** X15. Path parameters round-trip.  Take a template made of ordinary
    characters and placeholders, each placeholder followed by a slash or
    ending the template, and a path obtained by putting a non-empty,
    slash-free value in place of each placeholder.  With any engine that
    agrees with the reference, the pattern matches the path, and the
    extracted parameters are the names paired with those values, a later
    pair overwriting an earlier one of the same name. *)
Theorem path_parameters_round_trip ext m tpl values :
  re_faithful ext ->
  split_first_space m = None ->
  well_formed tpl = true ->
  good_values tpl values = true ->
  _matches_endpoint_pattern ext (m ++ " " ++ fill tpl values)
                            (m ++ " " ++ render tpl) = Ok true /\
  _extract_path_params ext (fill tpl values) (m ++ " " ++ render tpl)
  = Ok (dict_of_pairs (combine (map fst (snd tpl)) values)).
Proof.
  intros F Hm W G. split.
  - unfold _matches_endpoint_pattern.
    rewrite !(split_method_path m _ Hm). rewrite String.eqb_refl.
    cbn [negb].
    pose proof (@re_sub_on_template false tpl W) as S.
    change (str_of (seg_text false)) with "[^/]+"%string in S. rewrite S.
    pose proof (F _ _ _ (@reference_on_templates false tpl values W G)) as A.
    cbn [agrees] in A. now rewrite A.
  - unfold _extract_path_params.
    rewrite (split_method_path m _ Hm).
    rewrite (@findall_on_template tpl W).
    destruct (map fst (snd tpl)) as [|n names] eqn:N; [reflexivity|].
    rewrite <- N.
    pose proof (@re_sub_on_template true tpl W) as S.
    change (str_of (seg_text true)) with "([^/]+)"%string in S. rewrite S.
    pose proof (F _ _ _ (@reference_on_templates true tpl values W G)) as A.
    cbn [agrees] in A. now rewrite A.
Qed.

Lemma path_parameters_round_trip_witness :
  _extract_path_params Reference.ext "/users/u7/posts/p-42/comments"
    "GET /users/{user_id}/posts/{post_id}/comments"
  = Ok [("user_id", "u7"); ("post_id", "p-42")].
Proof.
  refine (eq_trans
            (proj2 (@path_parameters_round_trip
                      Reference.ext "GET"
                      ("/users/"%string,
                       [("user_id", "/posts/"); ("post_id", "/comments")])
                      ["u7"; "p-42"]
                      reference_engine_faithful _ _ _)) _);
    reflexivity.
Defined.

Lemma match_lits_exact p s :
  match_atoms (map Lit p) s
  = if (String.eqb (str_of s) (str_of p)
        || String.eqb (str_of s) (str_of (p ++ [newline])))%bool
    then Some [] else None.
Proof.
  revert s. induction p as [|c p IH]; intros s.
  - cbn [map match_atoms app]. unfold at_end.
    destruct s as [|c s]; [reflexivity|].
    destruct s as [|c' s].
    + cbn [str_of string_of_list_ascii String.eqb].
      now destruct (Ascii.eqb c newline).
    + cbn [str_of string_of_list_ascii String.eqb].
      destruct (Ascii.eqb c newline); reflexivity.
  - cbn [map match_atoms app]. destruct s as [|c' s]; [reflexivity|].
    cbn [str_of string_of_list_ascii String.eqb].
    rewrite (Ascii.eqb_sym c' c).
    destruct (Ascii.eqb c c'); [apply IH | reflexivity].
Qed.

Lemma tokenize_plain_all p :
  forallb plain p = true -> tokenize (List.length p) p = map Lit p.
Proof.
  intros H. pose proof (@tokenize_plain p [] (List.length p) H) as T.
  rewrite !app_nil_r in T. rewrite T by reflexivity.
  rewrite Nat.sub_diag. cbn [tokenize]. apply app_nil_r.
Qed.

Lemma literal_atoms p :
  existsb is_other (map Lit p) = false /\
  existsb is_open (map Lit p) = false /\
  existsb is_close (map Lit p) = false.
Proof. induction p as [|c p (I1 & I2 & I3)]; cbn; auto. Qed.

(** X13. A template without placeholders, made of ordinary characters,
    matches exactly two paths: itself, and itself followed by one newline,
    which the end anchor of the engine lets through. *)
Theorem literal_template_matches_itself ext m t path :
  re_faithful ext ->
  split_first_space m = None ->
  plain_text t = true ->
  _matches_endpoint_pattern ext (m ++ " " ++ path) (m ++ " " ++ t)
  = Ok (String.eqb path t || String.eqb path (t ++ str_of [newline]))%bool.
Proof.
  intros F Hm Ht. unfold _matches_endpoint_pattern.
  rewrite !(split_method_path m _ Hm). rewrite String.eqb_refl. cbn [negb].
  assert (S : re_sub_braces "[^/]+" t = str_of (chars t)).
  { unfold re_sub_braces. rewrite <- (app_nil_r (chars t)).
    rewrite scan_sub_plain by exact Ht. now rewrite !app_nil_r. }
  rewrite S.
  assert (R : re_match_ref ("^" ++ str_of (chars t) ++ "$") path
              = Some (if (String.eqb path t
                          || String.eqb path (t ++ str_of [newline]))%bool
                      then RefMatch [] else RefNoMatch)).
  { unfold re_match_ref. rewrite anchored_body_anchored.
    rewrite tokenize_plain_all by exact Ht.
    destruct (literal_atoms (chars t)) as (O1 & O2 & O3).
    rewrite O1, O2, O3.
    rewrite match_lits_exact. rewrite !str_of_chars.
    replace (str_of (chars t ++ [newline])) with (t ++ str_of [newline])%string.
    - now destruct (String.eqb path t || String.eqb path (t ++ str_of [newline]))%bool.
    - rewrite <- (str_of_chars (t ++ str_of [newline])).
      now rewrite chars_app, chars_str_of. }
  pose proof (F _ _ _ R) as A.
  destruct (String.eqb path t || String.eqb path (t ++ str_of [newline]))%bool;
    cbn [agrees] in A; now rewrite A.
Qed.

Lemma literal_template_matches_itself_witness :
  _matches_endpoint_pattern Reference.ext "POST /folders/42" "POST /folders"
  = Ok false.
Proof.
  exact (@literal_template_matches_itself
           Reference.ext "POST" "/folders" "/folders/42"
           reference_engine_faithful eq_refl eq_refl).
Defined.

(** The reference's answer for a well-formed template and any path. *)
Lemma reference_on_any_path captured tpl path :
  well_formed tpl = true ->
  re_match_ref
    ("^" ++ str_of (chars (fst tpl)
                      ++ regex_params (seg_text captured) (snd tpl)) ++ "$")
    path
  = Some match match_atoms (map Lit (chars (fst tpl))
                              ++ atoms_params captured (snd tpl))
                           (chars path) with
         | Some gs => RefMatch gs
         | None => RefNoMatch
         end.
Proof.
  destruct tpl as [prefix params]. unfold well_formed.
  cbn [fst snd]. intros W. apply andb_prop in W as [Wp Wr].
  unfold re_match_ref. rewrite anchored_body_anchored.
  rewrite tokenize_plain; [|exact Wp|reflexivity].
  rewrite length_app, Nat.add_comm, Nat.add_sub.
  rewrite tokenize_params; [|now apply well_formed_texts|reflexivity].
  destruct (ordinary_atoms captured (chars prefix) params) as (O1 & O2 & O3).
  cbv zeta in O1, O2, O3. rewrite O1, O2, O3.
  now destruct (match_atoms _ _).
Qed.

Lemma at_end_no_slash s :
  at_end s = true -> existsb (Ascii.eqb slash) s = false.
Proof.
  destruct s as [|c [|c' s]]; try discriminate; [reflexivity|].
  cbn [at_end existsb]. intros H. apply Ascii.eqb_eq in H. now subst.
Qed.

Lemma no_slash_not_in g :
  ~ In slash g -> existsb (Ascii.eqb slash) g = false.
Proof.
  induction g as [|c g IH]; [reflexivity|].
  intros H. cbn [existsb].
  destruct (Ascii.eqb_spec slash c) as [<-|N]; [destruct H; now left|].
  apply IH. intros I. apply H. now right.
Qed.

Lemma append_empty v : (v ++ "")%string = v.
Proof. induction v as [|c v IH]; [reflexivity|]. cbn [append]. now rewrite IH. Qed.

Lemma match_trailing_seg s gs :
  match_atoms [Seg false] s = Some gs ->
  exists g s', s = g ++ s' /\ g <> [] /\ ~ In slash g /\ at_end s' = true.
Proof.
  cbn [match_atoms].
  destruct (match_seg _ s) as [[g x]|] eqn:MS; [|discriminate].
  intros _. apply match_seg_sound in MS as (Gne & Gs & s' & -> & K).
  exists g, s'. repeat split; trivial.
  now destruct (at_end s').
Qed.

(** X14. A template that ends with a placeholder matches a path exactly when
    the path is the text before the placeholder followed by one non-empty
    segment without slash: the placeholder never stands for nothing and never
    crosses a slash, and the check never raises. *)
Theorem placeholder_is_one_segment ext m prefix name path :
  re_faithful ext ->
  split_first_space m = None ->
  plain_text prefix = true ->
  good_name name = true ->
  exists b,
    _matches_endpoint_pattern ext (m ++ " " ++ path)
      (m ++ " " ++ prefix ++ "{" ++ name ++ "}")
    = Ok b /\
    (b = true <->
     exists v, path = (prefix ++ v)%string /\ good_value v = true).
Proof.
  intros F Hm Hp Hn.
  change (prefix ++ "{" ++ name ++ "}")%string
    with (render (prefix, [(name, ""%string)])).
  set (tpl := (prefix, [(name, ""%string)]) : path_template).
  assert (W : well_formed tpl = true).
  { unfold well_formed, tpl. cbn [fst snd well_formed_params].
    rewrite Hp, Hn. reflexivity. }
  unfold _matches_endpoint_pattern.
  rewrite !(split_method_path m _ Hm). rewrite String.eqb_refl. cbn [negb].
  pose proof (@re_sub_on_template false tpl W) as S.
  change (str_of (seg_text false)) with "[^/]+"%string in S. rewrite S.
  pose proof (F _ path _ (@reference_on_any_path false tpl path W)) as A.
  destruct (match_atoms (map Lit (chars (fst tpl))
                           ++ atoms_params false (snd tpl)) (chars path))
    as [gs|] eqn:M; cbn [agrees] in A; rewrite A.
  - exists true. split; [reflexivity|]. split; [intros _|reflexivity].
    unfold tpl in M. cbn [fst snd atoms_params] in M.
    change (chars "") with (@nil ascii) in M. cbn [map app] in M.
    apply match_lits_inv in M as (s' & E & M).
    apply match_trailing_seg in M as (g & s'' & -> & Gne & Gs & AE).
    exists (str_of (g ++ s'')). split.
    + rewrite <- (str_of_chars path), E.
      rewrite <- (str_of_chars (prefix ++ str_of (g ++ s''))).
      now rewrite chars_app, chars_str_of.
    + unfold good_value. rewrite chars_str_of, existsb_app.
      rewrite (no_slash_not_in _ Gs), (at_end_no_slash _ AE).
      destruct g; [congruence | reflexivity].
  - exists false. split; [reflexivity|]. split; [discriminate|].
    intros (v & -> & Gv).
    assert (G : good_values tpl [v] = true).
    { unfold good_values, tpl. cbn [fst snd List.length Nat.eqb forallb].
      now rewrite Gv. }
    pose proof (@reference_on_templates false tpl [v] W G) as R.
    pose proof (@reference_on_any_path false tpl (fill tpl [v]) W) as R'.
    rewrite R in R'.
    assert (E : fill tpl [v] = (prefix ++ v)%string).
    { unfold fill, tpl. cbn [fst snd fill_params]. f_equal.
      change ("" ++ "")%string with ""%string. apply append_empty. }
    rewrite E, M in R'. discriminate R'.
Qed.

Lemma placeholder_is_one_segment_witness :
  exists b,
    _matches_endpoint_pattern Reference.ext "DELETE /folders/42/items"
                              "DELETE /folders/{folder_id}"
    = Ok b /\
    (b = true <->
     exists v, "/folders/42/items"%string = ("/folders/" ++ v)%string /\
               good_value v = true).
Proof.
  exact (@placeholder_is_one_segment
           Reference.ext "DELETE" "/folders/" "folder_id" "/folders/42/items"
           reference_engine_faithful eq_refl eq_refl eq_refl).
Defined.

Lemma find_last {A} (f : A -> bool) l a :
  find f (l ++ [a])
  = match find f l with
    | Some x => Some x
    | None => if f a then Some a else None
    end.
Proof.
  induction l as [|x l IH]; cbn [app find]; [reflexivity|].
  now destruct (f x).
Qed.

Lemma fold_pairs_lookup {V} (l : list (string * V)) d k :
  dict_get (fold_left (fun d kv => dict_set d (fst kv) (snd kv)) l d) k
  = match find (fun kv => String.eqb k (fst kv)) (rev l) with
    | Some kv => Some (snd kv)
    | None => dict_get d k
    end.
Proof.
  revert d. induction l as [|[k0 v0] l IH]; intros d; [reflexivity|].
  cbn [fold_left rev fst snd]. rewrite IH, find_last. cbn [fst snd].
  destruct (find (fun kv => String.eqb k (fst kv)) (rev l)); [reflexivity|].
  destruct (String.eqb_spec k k0) as [->|N].
  - apply dict_get_set.
  - now apply dict_get_set_other.
Qed.

Lemma extract_on_template ext m tpl values :
  re_faithful ext ->
  split_first_space m = None ->
  well_formed tpl = true ->
  good_values tpl values = true ->
  _extract_path_params ext (fill tpl values) (m ++ " " ++ render tpl)
  = Ok (dict_of_pairs (combine (map fst (snd tpl)) values)).
Proof.
  intros F Hm W G. unfold _extract_path_params.
  rewrite (split_method_path m _ Hm).
  rewrite (@findall_on_template tpl W).
  destruct (map fst (snd tpl)) as [|n names] eqn:N; [reflexivity|].
  rewrite <- N.
  pose proof (@re_sub_on_template true tpl W) as S.
  change (str_of (seg_text true)) with "([^/]+)"%string in S. rewrite S.
  pose proof (F _ _ _ (@reference_on_templates true tpl values W G)) as A.
  cbn [agrees] in A. now rewrite A.
Qed.

(** X16. When a template names the same placeholder more than once, the
    extracted mapping holds the value of its last occurrence: looking a name
    up gives the value paired with the last placeholder of that name, and
    nothing for a name the template does not have. *)
Theorem repeated_placeholder_keeps_last_value ext m tpl values k :
  re_faithful ext ->
  split_first_space m = None ->
  well_formed tpl = true ->
  good_values tpl values = true ->
  exists d,
    _extract_path_params ext (fill tpl values) (m ++ " " ++ render tpl)
    = Ok d /\
    dict_get d k
    = option_map snd
        (find (fun nv => String.eqb k (fst nv))
              (rev (combine (map fst (snd tpl)) values))).
Proof.
  intros F Hm W G. eexists. split; [now apply extract_on_template|].
  unfold dict_of_pairs. rewrite fold_pairs_lookup.
  now destruct (find _ _).
Qed.

Lemma repeated_placeholder_keeps_last_value_witness :
  exists d,
    _extract_path_params Reference.ext "/folders/1/move/2"
                         "POST /folders/{id}/move/{id}"
    = Ok d /\
    dict_get d "id" = Some "2"%string.
Proof.
  exact (@repeated_placeholder_keeps_last_value
           Reference.ext "POST"
           ("/folders/"%string, [("id", "/move/"); ("id", "")])
           ["1"; "2"] "id"
           reference_engine_faithful eq_refl eq_refl eq_refl).
Defined.
